(** * cell2cell.core.interaction_space

    A shallow embedding of [src/cell2cell/core/interaction_space.py]:
    [generate_interaction_elements] and the class [InteractionSpace]
    ([__init__], [pairwise_interaction], [compute_pairwise_interactions],
    [get_genes_for_filter]).

    Python objects that are mutated or shared (the InteractionSpace instance,
    the cell-cell interaction matrix) live in an explicit heap and are
    referred to by location; everything else is a value.  Exceptions are
    results of a small state-and-error monad.  [print] calls guarded by
    [verbose] write to stdout only and are left out. *)

From Stdlib Require Import QArith.
From stdpp Require Import gmap strings list fin_maps.

Local Open Scope string_scope.
Local Open Scope list_scope.

(** ** Exceptions and results *)

Inductive exn : Type :=
| ValueError (msg : string)
| KeyError (key : string)
| AttributeError (name : string)
| TypeError
| ConfigurationError (msg : string)
| DataError (msg : string)
| ScoringFailure (msg : string).

Inductive result (A : Type) : Type :=
| Ok (a : A)
| Raise (e : exn).
Arguments Ok {A} a.
Arguments Raise {A} e.

(** ** itertools.combinations(l, 2)

    Pairs of elements taken at positions [i < j] of [l], in the order
    itertools emits them. *)
Fixpoint combinations2 {A : Type} (l : list A) : list (A * A) :=
  match l with
  | [] => []
  | x :: t => (pair x <$> t) ++ combinations2 t
  end.

(** ** pandas.DataFrame

    A frame has row labels, column labels and one entry per position.  Labels
    are taken to be unique, as the expression table's identifiers are; a
    position of [index] x [columns] without an entry in [values] holds NaN. *)
Record DataFrame (V : Type) : Type := mkDataFrame {
  index : list string;
  columns : list string;
  values : gmap (string * string) V
}.
Arguments mkDataFrame {V} _ _ _.
Arguments index {V} _.
Arguments columns {V} _.
Arguments values {V} _.

(** [pd.DataFrame(np.zeros((n, n)), columns=labels, index=labels)] *)
Definition zeros {V : Type} (zero : V) (labels : list string) : DataFrame V :=
  mkDataFrame labels labels
    (gset_to_gmap zero (list_to_set (C := gset (string * string))
                          (list_prod labels labels))).

(** [df.loc[r, c] = v]: assignment by label.  A label that the frame does not
    have yet is appended to its axis (pandas' setting with enlargement). *)
Definition enlarge (labels : list string) (l : string) : list string :=
  if decide (l ∈ labels) then labels else labels ++ [l].

Definition loc_set {V : Type} (df : DataFrame V) (r c : string) (v : V)
  : DataFrame V :=
  mkDataFrame (enlarge (index df) r) (enlarge (columns df) c)
    (<[(r, c) := v]> (values df)).

(** [df.loc[r, c]] read back: the entry stored at the two labels. *)
Definition loc_get {V : Type} (df : DataFrame V) (r c : string) : option V :=
  values df !! (r, c).

(** ** Data of the analysis *)

(** One row of a PPI table reduced to three columns: protein A, protein B and
    the score of the interaction. *)
Definition edge (V : Type) : Type := (string * string * V)%type.

(** Modelled from the spec: the class [Cell] of [cell2cell.core.cell], which
    is not part of the sources at hand.  A cell is identified by its column
    label ([type]), owns its column of the binary expression table
    ([rnaseq_data], gene to presence) and its binary PPI sub-network. *)
Record Cell (V : Type) : Type := mkCell {
  type : string;
  rnaseq_data : gmap string bool;
  binary_ppi : list (edge V)
}.
Arguments mkCell {V} _ _ _.
Arguments type {V} _.
Arguments rnaseq_data {V} _.
Arguments binary_ppi {V} _.

(** [cell_instance.binary_ppi = ppi] *)
Definition set_binary_ppi {V : Type} (ppi : list (edge V)) (c : Cell V)
  : Cell V :=
  mkCell (type c) (rnaseq_data c) ppi.

(** An entry of the [gene_cutoffs] dictionary: the name of a method, a
    numeric parameter, or a table of thresholds (gene to cutoff). *)
Inductive cutoff_field (V : Type) : Type :=
| Method (name : string)
| Parameter_ (v : V)
| Table (df : DataFrame V).
Arguments Method {V} name.
Arguments Parameter_ {V} v.
Arguments Table {V} df.

(** ** Heap *)

Abbreviation loc := positive.

(** The dictionary returned by [generate_interaction_elements], with its three
    keys ['pairs'], ['cells'] and ['cci_matrix']; the matrix is held by
    reference. *)
Record interaction_elements (V : Type) : Type := mkElements {
  pairs : list (string * string);
  cells : gmap string (Cell V);
  cci_matrix : loc
}.
Arguments mkElements {V} _ _ _.
Arguments pairs {V} _.
Arguments cells {V} _.
Arguments cci_matrix {V} _.

(** Values an attribute of an InteractionSpace instance can hold. *)
Inductive value (V : Type) : Type :=
| VNone
| VStr (s : string)
| VList (l : list string)
| VBinary (df : DataFrame bool)
| VPPI (ppi : list (edge V))
| VElements (ie : interaction_elements V).
Arguments VNone {V}.
Arguments VStr {V} s.
Arguments VList {V} l.
Arguments VBinary {V} df.
Arguments VPPI {V} ppi.
Arguments VElements {V} ie.

Inductive object (V : Type) : Type :=
| ODataFrame (df : DataFrame V)
| OInstance (attrs : gmap string (value V)).
Arguments ODataFrame {V} df.
Arguments OInstance {V} attrs.

(** The state a call runs in: the heap, and the calls made so far to the
    external scorer [compute_interaction.cci_score_from_binary], oldest
    first. *)
Record state (V : Type) : Type := mkState {
  heap : gmap loc (object V);
  scored : list (Cell V * Cell V)
}.
Arguments mkState {V} _ _.
Arguments heap {V} _.
Arguments scored {V} _.

(** ** The monad of state and exceptions *)

Definition M (V A : Type) : Type := state V → state V * result A.

Definition ret {V A : Type} (a : A) : M V A := λ st, (st, Ok a).

Definition raise {V A : Type} (e : exn) : M V A := λ st, (st, Raise e).

Definition bind {V A B : Type} (m : M V A) (k : A → M V B) : M V B :=
  λ st, match m st with
        | (st', Ok a) => k a st'
        | (st', Raise e) => (st', Raise e)
        end.

Definition lift {V A : Type} (r : result A) : M V A := λ st, (st, r).

#[global] Instance M_ret {V : Type} : MRet (M V) := λ A a, ret a.
#[global] Instance M_bind {V : Type} : MBind (M V) := λ A B k m, bind m k.

(** [for x in l: body(x)] *)
Fixpoint for_each {V A : Type} (l : list A) (body : A → M V unit)
  : M V unit :=
  match l with
  | [] => ret tt
  | x :: t => body x;; for_each t body
  end.

(** A new object on the heap. *)
Definition alloc {V : Type} (o : object V) : M V loc :=
  λ st, let l := fresh (dom (heap st)) in
        (mkState (<[l := o]> (heap st)) (scored st), Ok l).

(** [self.name = v] *)
Definition setattr {V : Type} (self : loc) (name : string) (v : value V)
  : M V unit :=
  λ st, match heap st !! self with
        | Some (OInstance attrs) =>
            (mkState (<[self := OInstance (<[name := v]> attrs)]> (heap st))
               (scored st), Ok tt)
        | _ => (st, Raise (AttributeError name))
        end.

(** [self.name] *)
Definition getattr {V : Type} (self : loc) (name : string) : M V (value V) :=
  λ st, match heap st !! self with
        | Some (OInstance attrs) =>
            match attrs !! name with
            | Some v => (st, Ok v)
            | None => (st, Raise (AttributeError name))
            end
        | _ => (st, Raise (AttributeError name))
        end.

(** [m.loc[r, c] = v] on the frame at location [m] *)
Definition loc_assign {V : Type} (m : loc) (r c : string) (v : V)
  : M V unit :=
  λ st, match heap st !! m with
        | Some (ODataFrame df) =>
            (mkState (<[m := ODataFrame (loc_set df r c v)]> (heap st))
               (scored st), Ok tt)
        | _ => (st, Raise TypeError)
        end.

(** Reading an attribute at the type the code uses it at. *)
Definition as_str {V : Type} (v : value V) : M V string :=
  match v with VStr s => mret s | _ => raise TypeError end.

Definition as_binary {V : Type} (v : value V) : M V (DataFrame bool) :=
  match v with VBinary df => mret df | _ => raise TypeError end.

Definition as_ppi {V : Type} (v : value V) : M V (list (edge V)) :=
  match v with VPPI ppi => mret ppi | _ => raise TypeError end.

Definition as_elements {V : Type} (v : value V)
  : M V (interaction_elements V) :=
  match v with VElements ie => mret ie | _ => raise TypeError end.

(** [d[k]] on a dictionary with string keys *)
Definition getitem {V A : Type} (d : gmap string A) (k : string) : M V A :=
  match d !! k with Some a => mret a | None => raise (KeyError k) end.

(** ** Collaborators

    The functions of [cell2cell.preprocessing] ([cutoffs], [integrate_data])
    and [cell2cell.core] ([cell], [compute_interaction]) that the module
    calls.  Their code is not part of the sources at hand, so the module is
    embedded over any implementation of them. *)
Class Collaborators (V : Type) : Type := {
  get_cutoffs :
    DataFrame V → gmap string (cutoff_field V) → result (DataFrame V);
  get_binary_rnaseq : DataFrame V → DataFrame V → result (DataFrame bool);
  cells_from_rnaseq : DataFrame bool → result (gmap string (Cell V));
  get_binary_ppi : list (edge V) → gmap string bool → list (edge V);
  cci_score_from_binary : Cell V → Cell V → result V
}.

(** [list(set(l))]: the elements of [l] without repetition, in the order the
    interpreter's hash table yields them.  That order is not specified, so it
    is a parameter of the embedding; [set_order] says what every such order
    satisfies. *)
Definition list_of_set : Type :=
  ∀ (A : Type), EqDecision A → list A → list A.

Definition set_order (list_set : list_of_set) : Prop :=
  ∀ (A : Type) (E : EqDecision A) (l : list A),
    list_set A E l ≡ₚ remove_dups l.

Section interaction_space.
Context {V : Type} (zero : V) {ext : Collaborators V}.
Variable list_set : list_of_set.

(** The message of the [ValueError] of [__init__]. *)
Definition no_type_message : string :=
  "If dataframe is not included in gene_cutoffs, please provide the type of method to obtain them.".

(** [cell_instance.binary_ppi = integrate_data.get_binary_ppi(ppi_data,
    cell_instance.rnaseq_data, column='value')] *)
Definition with_binary_ppi (ppi_data : list (edge V))
    (cell_instance : Cell V) : Cell V :=
  set_binary_ppi (get_binary_ppi ppi_data (rnaseq_data cell_instance))
    cell_instance.

Definition generate_interaction_elements
    (binary_rnaseq : DataFrame bool) (ppi_data : list (edge V))
    (interaction_type : string) (cci_matrix_template : option loc)
  : M V (interaction_elements V) :=
  (* Cells *)
  let cell_instances := columns binary_rnaseq in
  (* Generate pairwise interactions *)
  let pairwise_interactions :=
    combinations2 (cell_instances ++ cell_instances) in
  let pairwise_interactions := list_set _ _ pairwise_interactions in
  (* Interaction elements *)
  cells0 ← lift (cells_from_rnaseq binary_rnaseq);
  (* Cell-specific binary ppi *)
  let cells1 := with_binary_ppi ppi_data <$> cells0 in
  (* Cell-cell interaction matrix *)
  m ← match cci_matrix_template with
      | None => alloc (ODataFrame (zeros zero cell_instances))
      | Some template => mret template
      end;
  mret (mkElements pairwise_interactions cells1 m).

Definition __init__ (self : loc)
    (rnaseq : DataFrame V) (ppi_dict : gmap string (list (edge V)))
    (interaction_type : string)
    (gene_cutoffs : gmap string (cutoff_field V))
    (cci_matrix_template : option loc)
  : M V unit :=
  cutoff_values ←
    (if decide ("type" ∈ dom gene_cutoffs)
     then lift (get_cutoffs rnaseq gene_cutoffs)
     else raise (ValueError no_type_message));
  binary ← lift (get_binary_rnaseq rnaseq cutoff_values);
  setattr self "binary_rnaseq" (VBinary binary);;
  setattr self "interaction_type" (VStr interaction_type);;
  it ← getattr self "interaction_type" ≫= as_str;
  ppi ← getitem ppi_dict it;
  setattr self "ppi_data" (VPPI ppi);;
  binary' ← getattr self "binary_rnaseq" ≫= as_binary;
  ppi' ← getattr self "ppi_data" ≫= as_ppi;
  it' ← getattr self "interaction_type" ≫= as_str;
  elements ←
    generate_interaction_elements binary' ppi' it' cci_matrix_template;
  setattr self "interaction_elements" (VElements elements).

(** [InteractionSpace(rnaseq_data, ppi_dict, interaction_type,
    gene_cutoffs, cci_matrix_template)]: a new instance without attributes
    is handed to [__init__]; the caller gets it if [__init__] returns. *)
Definition InteractionSpace
    (rnaseq : DataFrame V) (ppi_dict : gmap string (list (edge V)))
    (interaction_type : string)
    (gene_cutoffs : gmap string (cutoff_field V))
    (cci_matrix_template : option loc)
  : M V loc :=
  self ← alloc (OInstance ∅);
  __init__ self rnaseq ppi_dict interaction_type gene_cutoffs
    cci_matrix_template;;
  mret self.

(** The call is recorded in [scored]; the score is the collaborator's. *)
Definition pairwise_interaction (cell1 cell2 : Cell V) : M V V :=
  λ st, (mkState (heap st) (scored st ++ [(cell1, cell2)]),
         cci_score_from_binary cell1 cell2).

(** [self.interaction_elements] *)
Definition elements_of (self : loc) : M V (interaction_elements V) :=
  getattr self "interaction_elements" ≫= as_elements.

(** The body of the loop of [compute_pairwise_interactions]. *)
Definition score_pair (self : loc) (pair : string * string) : M V unit :=
  cell1 ← (ie ← elements_of self; getitem (cells ie) pair.1);
  cell2 ← (ie ← elements_of self; getitem (cells ie) pair.2);
  cci_score ← pairwise_interaction cell1 cell2;
  (ie ← elements_of self;
   loc_assign (cci_matrix ie) pair.1 pair.2 cci_score);;
  (ie ← elements_of self;
   loc_assign (cci_matrix ie) pair.2 pair.1 cci_score).

Definition compute_pairwise_interactions (self : loc) : M V unit :=
  ie ← elements_of self;
  for_each (pairs ie) (score_pair self).

(** [genes += self.name] when [self.name is not None] *)
Definition add_genes (self : loc) (name : string) (genes : list string)
  : M V (list string) :=
  v ← getattr self name;
  match v with
  | VNone => mret genes
  | VList l => mret (genes ++ l)
  | _ => raise TypeError
  end.

Definition get_genes_for_filter (self : loc) : M V (list string) :=
  let genes := [] in
  genes ← add_genes self "product_filter" genes;
  genes ← add_genes self "mediators" genes;
  mret (list_set _ _ genes).

End interaction_space.

(** ** The collaborators as the specification describes them

    An implementation of [Collaborators] over the rationals, used to run the
    module on concrete inputs. *)
Module Reference.

(** Modelled from the spec: [cutoffs.get_cutoffs], the Cutoff Resolver of
    section 4.1, whose code is missing.  The descriptor must name a
    supported method; the one supported here is the fixed constant,
    [{"type": "constant_value", "parameter": q}], which gives every gene
    of the expression table the threshold [q] (column ["value"]).  Anything
    else is a [ConfigurationError]. *)
Definition get_cutoffs (rnaseq : DataFrame Q)
    (gene_cutoffs : gmap string (cutoff_field Q)) : result (DataFrame Q) :=
  match gene_cutoffs !! "type", gene_cutoffs !! "parameter" with
  | Some (Method name), Some (Parameter_ q) =>
      if decide (name = "constant_value")
      then Ok (mkDataFrame (index rnaseq) ["value"]
                 (list_to_map ((λ g, ((g, "value"), q)) <$> index rnaseq)))
      else Raise (ConfigurationError "unsupported cutoff method")
  | _, _ => Raise (ConfigurationError "unsupported cutoff method")
  end.

(** Modelled from the spec: [integrate_data.get_binary_rnaseq], the
    Expression Binarizer of section 4.2, whose code is missing.  An entry is
    [true] iff the expression value is at least the threshold of its
    gene. *)
Definition get_binary_rnaseq (rnaseq cutoff_values : DataFrame Q)
  : result (DataFrame bool) :=
  Ok (mkDataFrame (index rnaseq) (columns rnaseq)
        (map_imap
           (λ (k : string * string) (v : Q),
              match values cutoff_values !! (k.1, "value") with
              | Some t => Some (Qle_bool t v)
              | None => Some false
              end)
           (values rnaseq))).

(** The column [c] of a binary table, gene to presence. *)
Definition column (binary : DataFrame bool) (c : string)
  : gmap string bool :=
  list_to_map
    (omap (λ g, pair g <$> values binary !! (g, c)) (index binary)).

(** Modelled from the spec: [cell.cells_from_rnaseq], the Cell Registry of
    section 4.3, whose code is missing.  One cell per column, keyed by the
    column label; a duplicated label or a table without rows or columns is a
    [DataError]. *)
Definition cells_from_rnaseq (binary : DataFrame bool)
  : result (gmap string (Cell Q)) :=
  if decide (NoDup (columns binary)
             ∧ index binary ≠ [] ∧ columns binary ≠ [])
  then Ok (list_to_map
             ((λ c, (c, mkCell c (column binary c) []))
                <$> columns binary))
  else Raise (DataError "duplicated cell label or empty table").

(** A protein is active in a cell when the cell's expression vector marks
    it [true]; a protein the vector does not list is not active. *)
Definition active (expr : gmap string bool) (p : string) : bool :=
  default false (expr !! p).

Definition both_active (expr : gmap string bool) (e : edge Q) : bool :=
  active expr e.1.1 && active expr e.1.2.

(** Modelled from the spec: [integrate_data.get_binary_ppi], the PPI
    Restrictor of section 4.4, whose code is missing.  An edge is kept iff
    both of its proteins are active in the cell. *)
Definition get_binary_ppi (ppi_data : list (edge Q))
    (expr : gmap string bool) : list (edge Q) :=
  filter (λ e, both_active expr e) ppi_data.

(** The aggregation strategies section 4.5 names. *)
Inductive aggregation : Type := Sum | Mean | Max.

Definition Qsum (ws : list Q) : Q := foldr Qplus 0%Q ws.

Definition Qmaximum (ws : list Q) : Q :=
  match ws with
  | [] => 0%Q
  | w :: t => foldr (λ a b, if Qle_bool a b then b else a) w t
  end.

Definition aggregate (a : aggregation) (ws : list Q) : Q :=
  match a with
  | Sum => Qsum ws
  | Mean =>
      match ws with
      | [] => 0%Q
      | _ => (Qsum ws / inject_Z (Z.of_nat (length ws)))%Q
      end
  | Max => Qmaximum ws
  end.

(** The edges that count for a pair of cells: those of the first cell's
    network whose two proteins are also an edge of the second cell's
    network (scenario A of section 8: an edge counts only if both proteins
    are active in both cells). *)
Definition qualifying (cell1 cell2 : Cell Q) : list (edge Q) :=
  filter (λ e, e.1 ∈ fst <$> binary_ppi cell2) (binary_ppi cell1).

(** Modelled from the spec: [compute_interaction.cci_score_from_binary],
    the Pairwise Scorer of section 4.5, whose code is missing.  The weights
    of the qualifying edges are combined by the aggregation strategy. *)
Definition cci_score_from_binary (a : aggregation) (cell1 cell2 : Cell Q)
  : result Q :=
  Ok (aggregate a (snd <$> qualifying cell1 cell2)).

Definition collaborators (a : aggregation) : Collaborators Q :=
  Build_Collaborators Q get_cutoffs get_binary_rnaseq cells_from_rnaseq
    get_binary_ppi (cci_score_from_binary a).

(** One iteration order of sets: that of [remove_dups]. *)
Definition list_set : list_of_set := λ A E l, @remove_dups A E l.

End Reference.

(** ** Scenario A of the specification

    Two genes, three cells, the fixed cutoff 1 and the PPI reference
    [{(g1, g2, 0.8)}].  Cells [A] and [B] express both genes, cell [C] only
    [g1]. *)
Module ScenarioA.

Definition rnaseq : DataFrame Q :=
  mkDataFrame ["g1"; "g2"] ["A"; "B"; "C"]
    (list_to_map
       [(("g1", "A"), 2%Q); (("g1", "B"), 1%Q); (("g1", "C"), 3%Q);
        (("g2", "A"), 1%Q); (("g2", "B"), 5%Q); (("g2", "C"), 0%Q)]).

Definition ppi : list (edge Q) := [("g1", "g2", (4 # 5)%Q)].

Definition ppi_dict : gmap string (list (edge Q)) := {["physical" := ppi]}.

Definition gene_cutoffs : gmap string (cutoff_field Q) :=
  <["type" := Method "constant_value"]> {["parameter" := Parameter_ 1%Q]}.

(** A cutoff descriptor that carries a table of thresholds and names no
    method. *)
Definition precomputed : gmap string (cutoff_field Q) :=
  {["dataframe" :=
      Table (mkDataFrame ["g1"; "g2"] ["value"]
               (list_to_map
                  [(("g1", "value"), 1%Q); (("g2", "value"), 1%Q)]))]}.

(** A template whose labels are not the cells of the table. *)
Definition mismatched : DataFrame Q :=
  mkDataFrame ["X"; "Y"] ["X"; "Y"]
    (list_to_map
       [(("X", "X"), 7%Q); (("X", "Y"), 8%Q);
        (("Y", "X"), 9%Q); (("Y", "Y"), 7%Q)]).

(** A template over the cells of the table, not symmetric and with a
    diagonal that is not zero. *)
Definition template : DataFrame Q :=
  mkDataFrame ["A"; "B"; "C"] ["A"; "B"; "C"]
    (list_to_map
       [(("A", "A"), 5%Q); (("A", "B"), 1%Q); (("A", "C"), 2%Q);
        (("B", "A"), 3%Q); (("B", "B"), 5%Q); (("B", "C"), 4%Q);
        (("C", "A"), 6%Q); (("C", "B"), 7%Q); (("C", "C"), 5%Q)]).

(** The caller's heap: the template lives at location 1. *)
Definition st0 (df : DataFrame Q) : state Q :=
  mkState {[1%positive := ODataFrame df]} [].

Definition empty : state Q := mkState ∅ [].

(** The binary expression table of the scenario. *)
Definition binary : DataFrame bool :=
  mkDataFrame ["g1"; "g2"] ["A"; "B"; "C"]
    (list_to_map
       [(("g1", "A"), true); (("g1", "B"), true); (("g1", "C"), true);
        (("g2", "A"), true); (("g2", "B"), true); (("g2", "C"), false)]).

(** The cells of the scenario, with their networks. *)
Definition cell_A : Cell Q :=
  mkCell "A" (list_to_map [("g1", true); ("g2", true)]) ppi.
Definition cell_C : Cell Q :=
  mkCell "C" (list_to_map [("g1", true); ("g2", false)]) [].

(** Construction under the reference collaborators, with the sum as
    aggregation and [remove_dups] as iteration order. *)
Definition new (gene_cutoffs : gmap string (cutoff_field Q))
    (cci_matrix_template : option loc) : M Q loc :=
  InteractionSpace 0%Q (ext := Reference.collaborators Reference.Sum)
    Reference.list_set rnaseq ppi_dict "physical" gene_cutoffs
    cci_matrix_template.

(** The scoring pass. *)
Definition pass (self : loc) : M Q unit :=
  compute_pairwise_interactions
    (ext := Reference.collaborators Reference.Sum) self.

(** The state after construction, and after the pass that follows it. *)
Definition constructed (cci_matrix_template : option loc) (st : state Q)
  : state Q :=
  (new gene_cutoffs cci_matrix_template st).1.

Definition completed (self : loc) (cci_matrix_template : option loc)
    (st : state Q) : state Q :=
  (pass self (constructed cci_matrix_template st)).1.

(** Another iteration order of sets: the reverse of the first. *)
Definition list_set_rev : list_of_set :=
  λ A E l, reverse (@remove_dups A E l).

End ScenarioA.

(** ** Reading a state

    What a caller holding a reference can observe. *)

(** The value of the attribute [name] of the instance at [self], if it has
    one. *)
Definition attr {V : Type} (st : state V) (self : loc) (name : string)
  : option (value V) :=
  match heap st !! self with
  | Some (OInstance attrs) => attrs !! name
  | _ => None
  end.

(** The frame at location [m]. *)
Definition frame {V : Type} (st : state V) (m : loc)
  : option (DataFrame V) :=
  match heap st !! m with
  | Some (ODataFrame df) => Some df
  | _ => None
  end.

(** [self.interaction_elements] *)
Definition elements {V : Type} (st : state V) (self : loc)
  : option (interaction_elements V) :=
  match attr st self "interaction_elements" with
  | Some (VElements ie) => Some ie
  | _ => None
  end.

(** [self.interaction_elements['cci_matrix']], dereferenced *)
Definition matrix {V : Type} (st : state V) (self : loc)
  : option (DataFrame V) :=
  ie ← elements st self; frame st (cci_matrix ie).

(** [list(self.binary_rnaseq.columns)]: the cell labels of the instance *)
Definition cell_labels {V : Type} (st : state V) (self : loc)
  : list string :=
  match attr st self "binary_rnaseq" with
  | Some (VBinary binary) => columns binary
  | _ => []
  end.

(** The template argument, when given, refers to a frame of the caller. *)
Definition template_ok {V : Type} (st : state V)
    (cci_matrix_template : option loc) : Prop :=
  ∀ t, cci_matrix_template = Some t → is_Some (frame st t).

(** ** What the scoring pass computes, as a function

    The effect of the loop of [compute_pairwise_interactions] on the matrix,
    when no step raises. *)
Section pass.
Context {V : Type} {ext : Collaborators V}.

(** The score the loop body obtains for a pair of labels. *)
Definition score_of (ie : interaction_elements V) (pair : string * string)
  : result V :=
  match cells ie !! pair.1 with
  | None => Raise (KeyError pair.1)
  | Some cell1 =>
      match cells ie !! pair.2 with
      | None => Raise (KeyError pair.2)
      | Some cell2 => cci_score_from_binary cell1 cell2
      end
  end.

(** The two assignments of the loop body. *)
Definition write_pair (df : DataFrame V) (pair : string * string) (s : V)
  : DataFrame V :=
  loc_set (loc_set df pair.1 pair.2 s) pair.2 pair.1 s.

Definition fill_step (ie : interaction_elements V) (df : DataFrame V)
    (pair : string * string) : DataFrame V :=
  match score_of ie pair with
  | Ok s => write_pair df pair s
  | Raise _ => df
  end.

Definition fill (ie : interaction_elements V) (df : DataFrame V)
    (ps : list (string * string)) : DataFrame V :=
  foldl (fill_step ie) df ps.

(** The calls to the scorer the loop makes over [ps]. *)
Definition calls (ie : interaction_elements V)
    (ps : list (string * string)) : list (Cell V * Cell V) :=
  omap (λ pair : string * string,
          cell1 ← cells ie !! pair.1;
          cell2 ← cells ie !! pair.2;
          Some (cell1, cell2)) ps.

Definition is_ok {A : Type} (r : result A) : Prop :=
  match r with Ok _ => True | Raise _ => False end.

(** What the loop relies on: the instance holds its interaction elements
    and their matrix is a frame of the heap. *)
Definition ready (self : loc) (ie : interaction_elements V)
    (st : state V) (df : DataFrame V) : Prop :=
  elements st self = Some ie ∧ frame st (cci_matrix ie) = Some df.

(** The scorer gives one score to a pair of cells of an interaction
    space, whichever comes first. *)
Definition symmetric_scorer : Prop :=
  ∀ (ppi : list (edge V)) (x1 x2 : Cell V),
    cci_score_from_binary (with_binary_ppi ppi x1) (with_binary_ppi ppi x2)
    = cci_score_from_binary
        (with_binary_ppi ppi x2) (with_binary_ppi ppi x1).

(** The attributes [__init__] leaves on the instance. *)
Definition attrs_built (binary : DataFrame bool) (ppi : list (edge V))
    (interaction_type : string) (ie : interaction_elements V)
  : gmap string (value V) :=
  <["interaction_elements" := VElements ie]>
    (<["ppi_data" := VPPI ppi]>
       (<["interaction_type" := VStr interaction_type]>
          (<["binary_rnaseq" := VBinary binary]> ∅))).

End pass.

(** ** What construction builds *)

Section built.
Context {V : Type} (zero : V) {ext : Collaborators V}.
Variable list_set : list_of_set.

(** Where the matrix of a new instance lives: at the template, or at the
    location allocated for the matrix of zeros (after the instance). *)
Definition matrix_loc (st : state V) (cci_matrix_template : option loc)
  : loc :=
  match cci_matrix_template with
  | None => fresh ({[fresh (dom (heap st))]} ∪ dom (heap st))
  | Some t => t
  end.

(** The state in which [__init__] raises before its first assignment: the
    new instance, without attributes, beside the caller's objects. *)
Definition bare_instance (st : state V) : state V :=
  mkState (<[fresh (dom (heap st)) := OInstance ∅]> (heap st)) (scored st).

(** The frame the matrix starts as. *)
Definition initial_matrix (st : state V)
    (cci_matrix_template : option loc) (labels : list string)
  : option (DataFrame V) :=
  match cci_matrix_template with
  | None => Some (zeros zero labels)
  | Some t => frame st t
  end.

(** The interaction elements of a table with the given cells. *)
Definition elements_built (binary : DataFrame bool)
    (ppi : list (edge V)) (cells0 : gmap string (Cell V)) (m : loc)
  : interaction_elements V :=
  mkElements
    (list_set _ _ (combinations2 (columns binary ++ columns binary)))
    (with_binary_ppi ppi <$> cells0) m.

End built.

(** ** Further definitions *)

(** The genes an attribute read by [get_genes_for_filter] contributes:
    none for [None], its elements for a list. *)
Definition genes_of {V : Type} (v : value V) : option (list string) :=
  match v with
  | VNone => Some []
  | VList l => Some l
  | _ => None
  end.

(** ** Scenario B: scenario A with a scorer that can fail, and with
    attributes set by the caller *)
Module ScenarioB.

(** A scorer that raises on a pair whose second cell is [C], and scores as
    the reference does otherwise. *)
Definition failing : Collaborators Q :=
  Build_Collaborators Q Reference.get_cutoffs Reference.get_binary_rnaseq
    Reference.cells_from_rnaseq Reference.get_binary_ppi
    (λ cell1 cell2,
       if decide (type cell2 = "C")
       then Raise (ScoringFailure "malformed cell")
       else Reference.cci_score_from_binary Reference.Sum cell1 cell2).

(** Construction and pass under the failing scorer. *)
Definition new (cci_matrix_template : option loc) : M Q loc :=
  InteractionSpace 0%Q (ext := failing) Reference.list_set ScenarioA.rnaseq
    ScenarioA.ppi_dict "physical" ScenarioA.gene_cutoffs cci_matrix_template.

Definition constructed : state Q := (new None ScenarioA.empty).1.

Definition pass (self : loc) : M Q unit :=
  compute_pairwise_interactions (ext := failing) self.

(** A binarizer that rejects every table; the other collaborators are those
    of the reference. *)
Definition broken_binarizer : Collaborators Q :=
  Build_Collaborators Q Reference.get_cutoffs
    (λ _ _, Raise (DataError "expression table cannot be binarized"))
    Reference.cells_from_rnaseq Reference.get_binary_ppi
    (Reference.cci_score_from_binary Reference.Sum).

(** An expression table with a repeated cell label, which the cell registry
    of the reference rejects. *)
Definition duplicated : DataFrame Q :=
  mkDataFrame ["g1"; "g2"] ["A"; "A"]
    (list_to_map [(("g1", "A"), 2%Q); (("g2", "A"), 1%Q)]).

(** A scorer that is not symmetric: it weighs the network of the first cell
    only. *)
Definition one_sided : Collaborators Q :=
  Build_Collaborators Q Reference.get_cutoffs Reference.get_binary_rnaseq
    Reference.cells_from_rnaseq Reference.get_binary_ppi
    (λ cell1 _, Ok (Reference.Qsum (snd <$> binary_ppi cell1))).

(** Construction followed by the pass, under given collaborators and a
    given iteration order of sets, on the inputs of scenario A. *)
Definition run (ext : Collaborators Q) (list_set : list_of_set)
    (cci_matrix_template : option loc) : M Q loc :=
  self ← InteractionSpace 0%Q (ext := ext) list_set ScenarioA.rnaseq
            ScenarioA.ppi_dict "physical" ScenarioA.gene_cutoffs
            cci_matrix_template;
  compute_pairwise_interactions (ext := ext) self;;
  mret self.

(** A descriptor that names a method the resolver does not have. *)
Definition unsupported : gmap string (cutoff_field Q) :=
  <["type" := Method "local_percentile"]>
    {["parameter" := Parameter_ (1 # 2)%Q]}.

(** The instance of scenario A after the caller has set [product_filter]
    and [mediators], and after it has set [product_filter] only. *)
Definition with_filter : state Q :=
  (setattr 1 "product_filter" (VList ["g1"; "g2"])
     (ScenarioA.constructed None ScenarioA.empty)).1.

Definition with_filter_and_mediators : state Q :=
  (setattr 1 "mediators" (VList ["g2"; "g3"]) with_filter).1.

(** The state after a second instance has been constructed on the template
    of the first, and after the pass on the first. *)
Definition first : state Q :=
  ScenarioA.constructed (Some 1%positive) (ScenarioA.st0 ScenarioA.template).

Definition second : state Q :=
  (ScenarioA.new ScenarioA.gene_cutoffs (Some 1%positive) first).1.

Definition second_passed : state Q := (ScenarioA.pass 2 second).1.

End ScenarioB.

(** Proves the first conjunct of the goal by evaluation and keeps it as
    [H]. *)
Ltac evaluated H :=
  match goal with
  | |- ?P ∧ _ => assert P as H by (vm_compute; reflexivity); split; [exact H|]
  end.

(** * Properties *)

(** ** Pair enumeration *)

Section combinations.
Context {A : Type}.
Implicit Types (l k : list A) (x y : A).

Lemma elem_of_combinations2 l x y :
  (x, y) ∈ combinations2 l → x ∈ l ∧ y ∈ l.
Proof.
  induction l as [|a l IH]; simpl.
  - by intros ?%elem_of_nil.
  - rewrite elem_of_app. intros [Hin | Hin].
    + apply list_elem_of_fmap in Hin as (y' & [= -> ->] & Hy).
      split; [left | by right].
    + destruct (IH Hin). split; by right.
Qed.

(** A pair whose first component comes from a prefix and whose second
    comes from the rest is enumerated. *)
Lemma elem_of_combinations2_app l k x y :
  x ∈ l → y ∈ k → (x, y) ∈ combinations2 (l ++ k).
Proof.
  intros Hx Hy. induction l as [|a l IH]; [by apply elem_of_nil in Hx|].
  simpl. rewrite elem_of_app.
  apply elem_of_cons in Hx as [-> | Hx].
  - left. apply list_elem_of_fmap. exists y. split; [done|].
    apply elem_of_app. by right.
  - right. by apply IH.
Qed.

(** Doubling the list makes the enumeration reach every ordered pair, the
    pairs [(x, x)] included. *)
Lemma elem_of_combinations2_double l x y :
  (x, y) ∈ combinations2 (l ++ l) ↔ x ∈ l ∧ y ∈ l.
Proof.
  split.
  - intros [Hx Hy]%elem_of_combinations2.
    apply elem_of_app in Hx, Hy. tauto.
  - intros [Hx Hy]. by apply elem_of_combinations2_app.
Qed.

Lemma NoDup_list_prod {B : Type} l (k : list B) :
  NoDup l → NoDup k → NoDup (list_prod l k).
Proof.
  intros Hl Hk. induction Hl as [|a l Ha Hl IH]; simpl; [constructor|].
  apply NoDup_app. split_and!.
  - apply (NoDup_fmap_2 _). done.
  - intros [a' b] Hin1 Hin2.
    apply list_elem_of_fmap in Hin1 as (b' & [= -> ->] & _).
    apply list_elem_of_In, in_prod_iff in Hin2 as [Hin2 _].
    by apply list_elem_of_In in Hin2.
  - done.
Qed.

End combinations.

(** What ['pairs'] holds, for any iteration order of the set: a permutation
    of the ordered pairs over the cell labels. *)
Lemma pairs_permutation (list_set : list_of_set) (l : list string) :
  set_order list_set → NoDup l →
  list_set _ _ (combinations2 (l ++ l)) ≡ₚ list_prod l l.
Proof.
  intros Hord Hl. rewrite (Hord _ _ _). apply NoDup_Permutation.
  - apply NoDup_remove_dups.
  - by apply NoDup_list_prod.
  - intros [x y]. rewrite elem_of_remove_dups, elem_of_combinations2_double.
    by rewrite !list_elem_of_In, in_prod_iff.
Qed.

Lemma elem_of_pairs (list_set : list_of_set) (l : list string) x y :
  set_order list_set →
  (x, y) ∈ list_set _ _ (combinations2 (l ++ l)) ↔ x ∈ l ∧ y ∈ l.
Proof.
  intros Hord. rewrite (Hord _ _ _), elem_of_remove_dups.
  apply elem_of_combinations2_double.
Qed.

Lemma NoDup_pairs (list_set : list_of_set) (l : list string) :
  set_order list_set → NoDup (list_set _ _ (combinations2 (l ++ l))).
Proof. intros Hord. rewrite (Hord _ _ _). apply NoDup_remove_dups. Qed.

(** ** Running the monad *)

Section running.
Context {V : Type}.
Implicit Types (st : state V) (self m : loc).

Lemma bind_run {A B : Type} (c : M V A) (k : A → M V B) st :
  (c ≫= k) st =
    match c st with
    | (st', Ok a) => k a st'
    | (st', Raise e) => (st', Raise e)
    end.
Proof. reflexivity. Qed.

Lemma bind_Ok {A B : Type} (c : M V A) (k : A → M V B) st st' a :
  c st = (st', Ok a) → (c ≫= k) st = k a st'.
Proof. intros Hc. by rewrite bind_run, Hc. Qed.

Lemma bind_Raise {A B : Type} (c : M V A) (k : A → M V B) st st' e :
  c st = (st', Raise e) → (c ≫= k) st = (st', Raise e).
Proof. intros Hc. by rewrite bind_run, Hc. Qed.

Lemma setattr_run self name (v : value V) st attrs :
  heap st !! self = Some (OInstance attrs) →
  setattr self name v st =
    (mkState (<[self := OInstance (<[name := v]> attrs)]> (heap st))
       (scored st), Ok tt).
Proof. intros Hself. unfold setattr. by rewrite Hself. Qed.

Lemma getattr_run self name (v : value V) st attrs :
  heap st !! self = Some (OInstance attrs) → attrs !! name = Some v →
  getattr self name st = (st, Ok v).
Proof. intros Hself Hv. unfold getattr. by rewrite Hself, Hv. Qed.

Lemma getattr_missing self name st attrs :
  heap st !! self = Some (OInstance attrs) → attrs !! name = None →
  getattr (V := V) self name st = (st, Raise (AttributeError name)).
Proof. intros Hself Hv. unfold getattr. by rewrite Hself, Hv. Qed.

Lemma loc_assign_run m r c (v : V) st df :
  heap st !! m = Some (ODataFrame df) →
  loc_assign m r c v st =
    (mkState (<[m := ODataFrame (loc_set df r c v)]> (heap st))
       (scored st), Ok tt).
Proof. intros Hm. unfold loc_assign. by rewrite Hm. Qed.

Lemma fresh_heap (h : gmap loc (object V)) : h !! fresh (dom h) = None.
Proof. apply not_elem_of_dom, is_fresh. Qed.

End running.

(** ** The scoring pass *)

Section scoring_pass.
Context {V : Type} {ext : Collaborators V}.
Variables (self : loc) (ie : interaction_elements V).
Implicit Types (st : state V) (df : DataFrame V) (p : string * string).

Lemma ready_heap st df :
  ready self ie st df →
  ∃ attrs, heap st !! self = Some (OInstance attrs)
           ∧ attrs !! "interaction_elements" = Some (VElements ie)
           ∧ heap st !! cci_matrix ie = Some (ODataFrame df)
           ∧ cci_matrix ie ≠ self.
Proof.
  unfold ready, elements, attr, frame. intros [He Hf].
  destruct (heap st !! self) as [[|attrs]|] eqn:Hself; try done.
  destruct (attrs !! "interaction_elements") as [[]|] eqn:Ha; try done.
  destruct (heap st !! cci_matrix ie) as [[df'|]|] eqn:Hm; try done.
  exists attrs. simplify_eq. split_and!; try done.
  intros Heq. rewrite Heq in Hm. congruence.
Qed.

Lemma elements_of_run st df : ready self ie st df → elements_of self st = (st, Ok ie).
Proof.
  intros (attrs & Hself & Ha & _)%ready_heap. unfold elements_of.
  by rewrite (bind_Ok _ _ _ _ _ (getattr_run _ _ _ _ _ Hself Ha)).
Qed.

Lemma ready_scored st df l :
  ready self ie st df → ready self ie (mkState (heap st) l) df.
Proof. done. Qed.

Lemma ready_assign st df df' l :
  ready self ie st df →
  ready self ie (mkState (<[cci_matrix ie := ODataFrame df']> (heap st)) l) df'.
Proof.
  intros Hr. destruct (ready_heap _ _ Hr) as (attrs & Hself & Ha & Hm & Hne).
  unfold ready, elements, attr, frame; simpl.
  rewrite lookup_insert_ne, Hself, Ha, lookup_insert_eq by done. done.
Qed.

(** One iteration of the loop. *)
Lemma score_pair_run st df p :
  ready self ie st df →
  score_pair self p st =
    match cells ie !! p.1 with
    | None => (st, Raise (KeyError p.1))
    | Some cell1 =>
        match cells ie !! p.2 with
        | None => (st, Raise (KeyError p.2))
        | Some cell2 =>
            let l := scored st ++ [(cell1, cell2)] in
            match cci_score_from_binary cell1 cell2 with
            | Raise e => (mkState (heap st) l, Raise e)
            | Ok s =>
                (mkState
                   (<[cci_matrix ie := ODataFrame (write_pair df p s)]>
                      (heap st)) l, Ok tt)
            end
        end
    end.
Proof.
  intros Hr. unfold score_pair.
  rewrite bind_run, bind_run, (elements_of_run _ _ Hr). unfold getitem.
  destruct (cells ie !! p.1) as [cell1|]; [|done]. simpl.
  rewrite bind_run, bind_run, (elements_of_run _ _ Hr).
  destruct (cells ie !! p.2) as [cell2|]; [|done]. simpl.
  rewrite bind_run. unfold pairwise_interaction at 1.
  destruct (cci_score_from_binary cell1 cell2) as [s|e]; [|done].
  set (l := scored st ++ [(cell1, cell2)]).
  pose proof (ready_scored _ _ l Hr) as Hr1.
  rewrite bind_run, bind_run, (elements_of_run _ _ Hr1).
  destruct (ready_heap _ _ Hr1) as (attrs & _ & _ & Hm & _).
  rewrite (loc_assign_run _ _ _ _ _ _ Hm). simpl.
  pose proof (ready_assign _ _ (loc_set df p.1 p.2 s) l Hr) as Hr2.
  rewrite bind_run, (elements_of_run _ _ Hr2).
  destruct (ready_heap _ _ Hr2) as (attrs2 & _ & _ & Hm2 & _).
  rewrite (loc_assign_run _ _ _ _ _ _ Hm2). simpl.
  by rewrite insert_insert_eq.
Qed.

Lemma fill_snoc df ps p : fill ie df (ps ++ [p]) = fill_step ie (fill ie df ps) p.
Proof. unfold fill. by rewrite foldl_app. Qed.

Lemma fill_cons df ps p : fill ie df (p :: ps) = fill ie (fill_step ie df p) ps.
Proof. done. Qed.

Lemma calls_cons_Ok p ps cell1 cell2 :
  cells ie !! p.1 = Some cell1 → cells ie !! p.2 = Some cell2 →
  calls ie (p :: ps) = (cell1, cell2) :: calls ie ps.
Proof. intros H1 H2. unfold calls. simpl. by rewrite H1, H2. Qed.

(** The whole loop, when every pair can be scored. *)
Lemma for_each_score_pair_Ok ps : ∀ st df,
  ready self ie st df → Forall (λ p, is_ok (score_of ie p)) ps →
  for_each ps (score_pair self) st =
    (mkState (<[cci_matrix ie := ODataFrame (fill ie df ps)]> (heap st))
       (scored st ++ calls ie ps), Ok tt).
Proof.
  induction ps as [|p ps IH]; intros st df Hr Hok.
  - destruct (ready_heap _ _ Hr) as (attrs & _ & _ & Hm & _).
    simpl. unfold ret. rewrite insert_id, app_nil_r by done. by destruct st.
  - apply Forall_cons in Hok as [Hp Hok].
    cbn [for_each]. rewrite bind_run, (score_pair_run _ _ _ Hr).
    rewrite fill_cons. unfold fill_step, score_of in *.
    destruct (cells ie !! p.1) as [cell1|] eqn:H1; [|done].
    destruct (cells ie !! p.2) as [cell2|] eqn:H2; [|done].
    rewrite (calls_cons_Ok _ ps _ _ H1 H2).
    destruct (cci_score_from_binary cell1 cell2) as [s|e]; [|done].
    cbv zeta.
    rewrite (IH _ (write_pair df p s) (ready_assign _ _ _ _ Hr) Hok).
    cbn [heap scored]. by rewrite insert_insert_eq, <- app_assoc.
Qed.

(** The loop returns only if every pair could be scored. *)
Lemma for_each_score_pair_inv ps : ∀ st df st',
  ready self ie st df →
  for_each ps (score_pair self) st = (st', Ok tt) →
  Forall (λ p, is_ok (score_of ie p)) ps.
Proof.
  induction ps as [|p ps IH]; intros st df st' Hr Hrun; [constructor|].
  simpl in Hrun. rewrite bind_run, (score_pair_run _ _ _ Hr) in Hrun.
  unfold score_of.
  destruct (cells ie !! p.1) as [cell1|] eqn:H1; [|done].
  destruct (cells ie !! p.2) as [cell2|] eqn:H2; [|done].
  simpl in Hrun.
  destruct (cci_score_from_binary cell1 cell2) as [s|e] eqn:Hs; [|done].
  constructor.
  - unfold score_of. by rewrite H1, H2, Hs.
  - eapply (IH _ (write_pair df p s)); [|done].
    exact (ready_assign _ _ _ _ Hr).
Qed.

Lemma compute_pairwise_interactions_run st df :
  ready self ie st df →
  compute_pairwise_interactions self st
  = for_each (pairs ie) (score_pair self) st.
Proof.
  intros Hr. unfold compute_pairwise_interactions.
  by rewrite bind_run, (elements_of_run _ _ Hr).
Qed.

End scoring_pass.

(** ** Construction *)

Section construction.
Context {V : Type} (zero : V) {ext : Collaborators V}.
Variable list_set : list_of_set.
Implicit Types (st : state V) (self m : loc).

Lemma InteractionSpace_run rnaseq ppi_dict it gene_cutoffs tmpl st :
  InteractionSpace zero list_set rnaseq ppi_dict it gene_cutoffs tmpl st =
    let self := fresh (dom (heap st)) in
    let at_self attrs := <[self := OInstance attrs]> (heap st) in
    if decide ("type" ∈ dom gene_cutoffs) then
      match get_cutoffs rnaseq gene_cutoffs with
      | Raise e => (mkState (at_self ∅) (scored st), Raise e)
      | Ok cutoff_values =>
          match get_binary_rnaseq rnaseq cutoff_values with
          | Raise e => (mkState (at_self ∅) (scored st), Raise e)
          | Ok binary =>
              let a2 : gmap string (value V) :=
                <["interaction_type" := VStr it]>
                  (<["binary_rnaseq" := VBinary binary]> ∅) in
              match ppi_dict !! it with
              | None => (mkState (at_self a2) (scored st),
                         Raise (KeyError it))
              | Some ppi =>
                  let a3 := <["ppi_data" := VPPI ppi]> a2 in
                  match cells_from_rnaseq binary with
                  | Raise e => (mkState (at_self a3) (scored st), Raise e)
                  | Ok cells0 =>
                      let m := match tmpl with
                               | None => fresh ({[self]} ∪ dom (heap st))
                               | Some t => t
                               end in
                      let ie :=
                        mkElements
                          (list_set _ _
                             (combinations2
                                (columns binary ++ columns binary)))
                          (with_binary_ppi ppi <$> cells0) m in
                      let h :=
                        match tmpl with
                        | None =>
                            <[m := ODataFrame
                                     (zeros zero (columns binary))]>
                              (heap st)
                        | Some _ => heap st
                        end in
                      (mkState
                         (<[self := OInstance
                                      (attrs_built binary ppi it ie)]> h)
                         (scored st), Ok self)
                  end
              end
          end
      end
    else (mkState (at_self ∅) (scored st),
          Raise (ValueError no_type_message)).
Proof.
  unfold InteractionSpace, __init__. cbv zeta.
  rewrite bind_run. unfold alloc at 1. cbv zeta.
  set (self := fresh (dom (heap st))).
  rewrite bind_run, bind_run.
  case_decide as Htype; [|done].
  unfold lift at 1.
  destruct (get_cutoffs rnaseq gene_cutoffs) as [cutoff_values|e]; [|done].
  rewrite bind_run. unfold lift at 1.
  destruct (get_binary_rnaseq rnaseq cutoff_values) as [binary|e]; [|done].
  rewrite bind_run.
  erewrite setattr_run by (cbn [heap]; apply lookup_insert_eq).
  cbn [heap scored]. rewrite insert_insert_eq.
  rewrite bind_run.
  erewrite setattr_run by (cbn [heap]; apply lookup_insert_eq).
  cbn [heap scored]. rewrite insert_insert_eq.
  rewrite bind_run, bind_run.
  erewrite getattr_run;
    [|cbn [heap]; apply lookup_insert_eq|apply lookup_insert_eq].
  cbn [as_str]. unfold mret at 1, M_ret at 1, ret at 1.
  rewrite bind_run. unfold getitem at 1.
  destruct (ppi_dict !! it) as [ppi|]; [|done].
  unfold mret at 1, M_ret at 1, ret at 1.
  rewrite bind_run.
  erewrite setattr_run by (cbn [heap]; apply lookup_insert_eq).
  cbn [heap scored]. rewrite insert_insert_eq.
  rewrite bind_run, bind_run.
  erewrite getattr_run;
    [|cbn [heap]; apply lookup_insert_eq|by simplify_map_eq].
  cbn [as_binary]. unfold mret at 1, M_ret at 1, ret at 1.
  rewrite bind_run, bind_run.
  erewrite getattr_run;
    [|cbn [heap]; apply lookup_insert_eq|by simplify_map_eq].
  cbn [as_ppi]. unfold mret at 1, M_ret at 1, ret at 1.
  rewrite bind_run, bind_run.
  erewrite getattr_run;
    [|cbn [heap]; apply lookup_insert_eq|by simplify_map_eq].
  cbn [as_str]. unfold mret at 1, M_ret at 1, ret at 1.
  rewrite bind_run. unfold generate_interaction_elements at 1. cbv zeta.
  rewrite bind_run. unfold lift at 1.
  destruct (cells_from_rnaseq binary) as [cells0|e]; [|done].
  rewrite bind_run.
  destruct tmpl as [t|].
  - unfold mret at 1, M_ret at 1, ret at 1.
    unfold mret at 1, M_ret at 1, ret at 1.
    erewrite setattr_run by (cbn [heap]; apply lookup_insert_eq).
    cbn [heap scored]. by rewrite insert_insert_eq.
  - unfold alloc at 1. cbv zeta. cbn [heap scored].
    unfold mret at 1, M_ret at 1, ret at 1.
    set (a3 := <["ppi_data":=_]> _).
    rewrite dom_insert_L.
    set (m := fresh ({[self]} ∪ dom (heap st))).
    assert (m ≠ self) as Hne.
    { intros Heq. pose proof (is_fresh ({[self]} ∪ dom (heap st))) as Hf.
      fold m in Hf. rewrite Heq in Hf. set_solver. }
    erewrite setattr_run
      by (cbn [heap]; rewrite lookup_insert_ne by done;
          apply lookup_insert_eq).
    cbn [heap scored]. unfold mret, M_ret, ret.
    by rewrite (insert_insert_ne _ m self), insert_insert_eq by done.
Qed.

End construction.

(** ** The matrix after the pass *)

Section enlarging.
Implicit Types (labels ls : list string) (x : string).

Lemma elem_of_enlarge labels l x :
  x ∈ enlarge labels l ↔ x ∈ labels ∨ x = l.
Proof.
  unfold enlarge. case_decide as Hin.
  - split; [by left|]. by intros [?| ->].
  - by rewrite elem_of_app, list_elem_of_singleton.
Qed.

Lemma enlarge_elem_of labels l : l ∈ labels → enlarge labels l = labels.
Proof. intros Hin. unfold enlarge. by rewrite decide_True. Qed.

(** Enlarging by a list of labels appends the new ones, once each. *)
Lemma foldl_enlarge ls : ∀ labels,
  ∃ new, foldl enlarge labels ls = labels ++ new
         ∧ NoDup new
         ∧ ∀ x, x ∈ new ↔ x ∈ ls ∧ x ∉ labels.
Proof.
  induction ls as [|l ls IH]; intros labels; simpl.
  - exists []. rewrite app_nil_r. split_and!; [done|constructor|].
    intros x. rewrite !elem_of_nil. tauto.
  - unfold enlarge at 2. case_decide as Hin.
    + destruct (IH labels) as (new & -> & Hnd & Hnew).
      exists new. split_and!; [done..|].
      intros x. rewrite Hnew, elem_of_cons.
      split; [tauto|]. intros [[-> | Hx] Hnot]; tauto.
    + destruct (IH (labels ++ [l])) as (new & -> & Hnd & Hnew).
      exists (l :: new). rewrite <- app_assoc. split_and!; [done| |].
      * constructor; [|done]. rewrite Hnew, elem_of_app.
        rewrite list_elem_of_singleton. tauto.
      * intros x. rewrite !elem_of_cons, Hnew, elem_of_app.
        rewrite list_elem_of_singleton.
        destruct (decide (x = l)) as [-> | Hne]; tauto.
Qed.

Lemma foldl_enlarge_perm labels ls ls' :
  (∀ x, x ∈ ls ↔ x ∈ ls') →
  foldl enlarge labels ls ≡ₚ foldl enlarge labels ls'.
Proof.
  intros Hsame.
  destruct (foldl_enlarge ls labels) as (new & -> & Hnd & Hnew).
  destruct (foldl_enlarge ls' labels) as (new' & -> & Hnd' & Hnew').
  apply Permutation_app_head, NoDup_Permutation; [done..|].
  intros x. rewrite Hnew, Hnew', Hsame. done.
Qed.

Lemma foldl_enlarge_covered labels ls :
  ls ⊆ labels → foldl enlarge labels ls = labels.
Proof.
  induction ls as [|l ls IH]; intros Hsub; [done|]. simpl.
  rewrite enlarge_elem_of by (apply Hsub; left).
  apply IH. intros x Hx. apply Hsub. by right.
Qed.

End enlarging.

Section filling.
Context {V : Type} {ext : Collaborators V}.
Variable ie : interaction_elements V.
Implicit Types (df : DataFrame V) (p : string * string)
  (ps : list (string * string)) (i j : string).

Local Abbreviation scorable := (Forall (λ p, is_ok (score_of ie p))).

Lemma loc_get_write_pair_1 df p s :
  loc_get (write_pair df p s) p.1 p.2 = Some s.
Proof.
  unfold loc_get, write_pair, loc_set; simpl.
  destruct (decide ((p.2, p.1) = (p.1, p.2))) as [->|Hne].
  - apply lookup_insert_eq.
  - rewrite lookup_insert_ne by done. apply lookup_insert_eq.
Qed.

Lemma loc_get_write_pair_2 df p s :
  loc_get (write_pair df p s) p.2 p.1 = Some s.
Proof. unfold loc_get, write_pair, loc_set; simpl. apply lookup_insert_eq. Qed.

Lemma loc_get_write_pair_ne df p s i j :
  (i, j) ≠ (p.1, p.2) → (i, j) ≠ (p.2, p.1) →
  loc_get (write_pair df p s) i j = loc_get df i j.
Proof.
  intros H1 H2. unfold loc_get, write_pair, loc_set; simpl.
  by rewrite !lookup_insert_ne.
Qed.

(** An entry of the filled matrix was written by the last pair that names
    its two labels, in either order, or is the initial one. *)
Lemma loc_get_fill df ps i j :
  scorable ps →
  (loc_get (fill ie df ps) i j = loc_get df i j
   ∧ ¬ (i, j) ∈ ps ∧ ¬ (j, i) ∈ ps)
  ∨ (∃ p s, p ∈ ps ∧ (p = (i, j) ∨ p = (j, i))
            ∧ score_of ie p = Ok s
            ∧ loc_get (fill ie df ps) i j = Some s
            ∧ loc_get (fill ie df ps) j i = Some s).
Proof.
  induction ps as [|p ps IH] using rev_ind; intros Hok.
  - left. split_and!; [done|apply not_elem_of_nil..].
  - apply Forall_app in Hok as [Hok [Hp _]%Forall_cons].
    rewrite (fill_snoc ie). unfold fill_step.
    destruct (score_of ie p) as [s|e] eqn:Hs; [|done].
    destruct (decide (p = (i, j))) as [->|Hne1].
    { right. exists (i, j), s.
      split_and!; [apply elem_of_app; right; by left|by left|done|..].
      - apply (loc_get_write_pair_1 _ (i, j)).
      - apply (loc_get_write_pair_2 _ (i, j)). }
    destruct (decide (p = (j, i))) as [->|Hne2].
    { right. exists (j, i), s.
      split_and!; [apply elem_of_app; right; by left|by right|done|..].
      - apply (loc_get_write_pair_2 _ (j, i)).
      - apply (loc_get_write_pair_1 _ (j, i)). }
    assert ((i, j) ≠ (p.1, p.2) ∧ (i, j) ≠ (p.2, p.1)
            ∧ (j, i) ≠ (p.1, p.2) ∧ (j, i) ≠ (p.2, p.1)) as (?&?&?&?).
    { destruct p as [a b]; simpl. split_and!; congruence. }
    rewrite !loc_get_write_pair_ne by done.
    destruct (IH Hok) as [(Hinit & Hn1 & Hn2) | (q & s' & Hq & Hs')].
    + left. rewrite !elem_of_app, !list_elem_of_singleton.
      split_and!; [done|intros [?|?]; congruence..].
    + right. exists q, s'. split; [apply elem_of_app; by left|done].
Qed.

(** Each unordered pair that was scored ends up with one value at both of
    its positions. *)
Lemma fill_symmetric df ps i j :
  scorable ps → (i, j) ∈ ps ∨ (j, i) ∈ ps →
  ∃ s, loc_get (fill ie df ps) i j = Some s
       ∧ loc_get (fill ie df ps) j i = Some s.
Proof.
  intros Hok Hin.
  destruct (loc_get_fill df ps i j Hok)
    as [(_ & Hn1 & Hn2) | (q & s & _ & _ & _ & H1 & H2)]; [tauto|eauto].
Qed.

(** A diagonal entry holds the score of the cell with itself. *)
Lemma fill_diagonal df ps i :
  scorable ps → (i, i) ∈ ps →
  ∃ s, score_of ie (i, i) = Ok s ∧ loc_get (fill ie df ps) i i = Some s.
Proof.
  intros Hok Hin.
  destruct (loc_get_fill df ps i i Hok)
    as [(_ & Hn1 & _) | (q & s & _ & Hq & Hs & H1 & _)]; [done|].
  exists s. split; [|done]. by destruct Hq as [-> | ->].
Qed.

(** With a scorer that does not depend on the order of its two cells, an
    entry depends on the set of pairs only. *)
Lemma loc_get_fill_sym df ps i j :
  scorable ps →
  (∀ p, p ∈ ps → score_of ie (p.2, p.1) = score_of ie p) →
  loc_get (fill ie df ps) i j
  = if decide ((i, j) ∈ ps ∨ (j, i) ∈ ps)
    then match score_of ie (i, j) with Ok s => Some s | Raise _ => None end
    else loc_get df i j.
Proof.
  intros Hok Hsym.
  destruct (loc_get_fill df ps i j Hok)
    as [(Hinit & Hn1 & Hn2) | (q & s & Hin & Hq & Hs & H1 & _)].
  - rewrite decide_False by tauto. done.
  - rewrite H1. destruct Hq as [-> | ->].
    + rewrite decide_True, Hs by tauto. done.
    + rewrite decide_True by tauto.
      by rewrite <- (Hsym _ Hin) in Hs; simpl in Hs; rewrite Hs.
Qed.

(** The labels of the filled matrix. *)
Lemma index_fill df ps :
  scorable ps →
  index (fill ie df ps)
  = foldl enlarge (index df) (ps ≫= λ p, [p.1; p.2]).
Proof.
  revert df. induction ps as [|p ps IH]; intros df Hok; [done|].
  apply Forall_cons in Hok as [Hp Hok]. simpl.
  rewrite IH by done. unfold fill_step.
  destruct (score_of ie p); done.
Qed.

Lemma columns_fill df ps :
  scorable ps →
  columns (fill ie df ps)
  = foldl enlarge (columns df) (ps ≫= λ p, [p.2; p.1]).
Proof.
  revert df. induction ps as [|p ps IH]; intros df Hok; [done|].
  apply Forall_cons in Hok as [Hp Hok]. simpl.
  rewrite IH by done. unfold fill_step.
  destruct (score_of ie p); done.
Qed.

End filling.

(** ** A constructed interaction space *)

Section constructed.
Context {V : Type} (zero : V) {ext : Collaborators V}.
Variable list_set : list_of_set.
Implicit Types (st : state V) (self m : loc).

(** What a successful construction went through and left behind. *)
Lemma InteractionSpace_Ok rnaseq ppi_dict it gene_cutoffs tmpl st st1 self :
  InteractionSpace zero list_set rnaseq ppi_dict it gene_cutoffs tmpl st
  = (st1, Ok self) →
  ∃ cutoff_values binary ppi cells0,
    "type" ∈ dom gene_cutoffs
    ∧ get_cutoffs rnaseq gene_cutoffs = Ok cutoff_values
    ∧ get_binary_rnaseq rnaseq cutoff_values = Ok binary
    ∧ ppi_dict !! it = Some ppi
    ∧ cells_from_rnaseq binary = Ok cells0
    ∧ self = fresh (dom (heap st))
    ∧ st1 =
        mkState
          (<[self := OInstance
                       (attrs_built binary ppi it
                          (elements_built list_set binary ppi cells0
                             (matrix_loc st tmpl)))]>
             (match tmpl with
              | None =>
                  <[matrix_loc st tmpl :=
                      ODataFrame (zeros zero (columns binary))]> (heap st)
              | Some _ => heap st
              end))
          (scored st).
Proof.
  rewrite InteractionSpace_run. cbv zeta.
  case_decide as Htype; [|done].
  destruct (get_cutoffs _ _) as [cutoff_values|] eqn:Hcut; [|done].
  destruct (get_binary_rnaseq _ _) as [binary|] eqn:Hbin; [|done].
  destruct (ppi_dict !! it) as [ppi|] eqn:Hppi; [|done].
  destruct (cells_from_rnaseq binary) as [cells0|] eqn:Hcells; [|done].
  intros [= <- <-]. exists cutoff_values, binary, ppi, cells0.
  split_and!; try done; by destruct tmpl.
Qed.

Lemma matrix_loc_ne st tmpl :
  template_ok st tmpl → matrix_loc st tmpl ≠ fresh (dom (heap st)).
Proof.
  intros Htmpl Heq. destruct tmpl as [t|]; simpl in Heq.
  - destruct (Htmpl t eq_refl) as [df Hdf]. unfold frame in Hdf.
    rewrite Heq, fresh_heap in Hdf. done.
  - pose proof (is_fresh ({[fresh (dom (heap st))]} ∪ dom (heap st))) as Hf.
    rewrite Heq in Hf. set_solver.
Qed.

(** What a successful construction obtained from the collaborators, and
    that the instance is ready for the scoring pass. *)
Lemma InteractionSpace_built rnaseq ppi_dict it gene_cutoffs tmpl st st1
    self :
  InteractionSpace zero list_set rnaseq ppi_dict it gene_cutoffs tmpl st
  = (st1, Ok self) →
  template_ok st tmpl →
  ∃ cutoff_values binary ppi cells0 df0,
    ("type" ∈ dom gene_cutoffs
     ∧ get_cutoffs rnaseq gene_cutoffs = Ok cutoff_values
     ∧ get_binary_rnaseq rnaseq cutoff_values = Ok binary
     ∧ ppi_dict !! it = Some ppi
     ∧ cells_from_rnaseq binary = Ok cells0)
    ∧ initial_matrix zero st tmpl (columns binary) = Some df0
    ∧ ready self
        (elements_built list_set binary ppi cells0 (matrix_loc st tmpl))
        st1 df0
    ∧ cell_labels st1 self = columns binary
    ∧ scored st1 = scored st.
Proof.
  intros Hrun Htmpl. pose proof (matrix_loc_ne st tmpl Htmpl) as Hne.
  apply InteractionSpace_Ok
    in Hrun as (cv & binary & ppi & cells0 & Ht & Hcv & Hb & Hp & Hc
                & -> & ->).
  exists cv, binary, ppi, cells0.
  assert (∃ df0, initial_matrix zero st tmpl (columns binary) = Some df0
                 ∧ (match tmpl with
                    | None =>
                        <[matrix_loc st tmpl :=
                            ODataFrame (zeros zero (columns binary))]>
                          (heap st)
                    | Some _ => heap st
                    end) !! matrix_loc st tmpl = Some (ODataFrame df0))
    as (df0 & Hinit & Hm).
  { destruct tmpl as [t|]; simpl.
    - destruct (Htmpl t eq_refl) as [df Hdf]. exists df. split; [done|].
      unfold frame in Hdf.
      destruct (heap st !! t) as [[]|]; by simplify_eq.
    - eexists. split; [done|]. apply lookup_insert_eq. }
  exists df0. split_and!; try done.
  - unfold ready, elements, attr, frame; simpl.
    rewrite lookup_insert_eq. unfold attrs_built.
    rewrite lookup_insert_eq. simpl.
    by rewrite lookup_insert_ne, Hm by done.
  - unfold cell_labels, attr; simpl. rewrite lookup_insert_eq.
    unfold attrs_built. by simplify_map_eq.
Qed.

Lemma InteractionSpace_ready rnaseq ppi_dict it gene_cutoffs tmpl st st1
    self :
  InteractionSpace zero list_set rnaseq ppi_dict it gene_cutoffs tmpl st
  = (st1, Ok self) →
  template_ok st tmpl →
  ∃ binary ppi cells0 df0,
    cells_from_rnaseq binary = Ok cells0
    ∧ initial_matrix zero st tmpl (columns binary) = Some df0
    ∧ ready self
        (elements_built list_set binary ppi cells0 (matrix_loc st tmpl))
        st1 df0
    ∧ cell_labels st1 self = columns binary
    ∧ scored st1 = scored st.
Proof.
  intros Hrun Htmpl.
  destruct (InteractionSpace_built _ _ _ _ _ _ _ _ Hrun Htmpl)
    as (cv & binary & ppi & cells0 & df0 & (_ & _ & _ & _ & Hc) & H).
  by exists binary, ppi, cells0, df0.
Qed.

(** Construction succeeds whenever the collaborators do. *)
Lemma InteractionSpace_succeeds rnaseq ppi_dict it gene_cutoffs tmpl st
    cutoff_values binary ppi cells0 :
  "type" ∈ dom gene_cutoffs →
  get_cutoffs rnaseq gene_cutoffs = Ok cutoff_values →
  get_binary_rnaseq rnaseq cutoff_values = Ok binary →
  ppi_dict !! it = Some ppi →
  cells_from_rnaseq binary = Ok cells0 →
  ∃ st1,
    InteractionSpace zero list_set rnaseq ppi_dict it gene_cutoffs tmpl st
    = (st1, Ok (fresh (dom (heap st)))).
Proof.
  intros Ht Hcv Hb Hp Hc. rewrite InteractionSpace_run. cbv zeta.
  rewrite decide_True, Hcv, Hb, Hp, Hc by done. eauto.
Qed.

End constructed.

(** ** The pass on a ready instance *)

Section pass_result.
Context {V : Type} {ext : Collaborators V}.
Implicit Types (st : state V) (self : loc) (ie : interaction_elements V).

(** The pass returns exactly when every pair can be scored, and then the
    matrix is the initial one filled pair by pair. *)
Lemma compute_pairwise_interactions_Ok self ie st df st' :
  ready self ie st df →
  compute_pairwise_interactions self st = (st', Ok tt) →
  Forall (λ p, is_ok (score_of ie p)) (pairs ie)
  ∧ st' = mkState
            (<[cci_matrix ie := ODataFrame (fill ie df (pairs ie))]>
               (heap st))
            (scored st ++ calls ie (pairs ie)).
Proof.
  intros Hr Hrun.
  rewrite (compute_pairwise_interactions_run _ _ _ _ Hr) in Hrun.
  pose proof (for_each_score_pair_inv _ _ _ _ _ _ Hr Hrun) as Hok.
  rewrite (for_each_score_pair_Ok _ _ _ _ _ Hr Hok) in Hrun.
  split; [done|]. congruence.
Qed.

Lemma compute_pairwise_interactions_completes self ie st df :
  ready self ie st df →
  Forall (λ p, is_ok (score_of ie p)) (pairs ie) →
  ∃ st', compute_pairwise_interactions self st = (st', Ok tt).
Proof.
  intros Hr Hok.
  rewrite (compute_pairwise_interactions_run _ _ _ _ Hr).
  rewrite (for_each_score_pair_Ok _ _ _ _ _ Hr Hok). eauto.
Qed.

Lemma cell_labels_assign self ie st df df' l :
  ready self ie st df →
  cell_labels
    (mkState (<[cci_matrix ie := ODataFrame df']> (heap st)) l) self
  = cell_labels st self.
Proof.
  intros (attrs & Hself & _ & _ & Hne)%ready_heap.
  unfold cell_labels, attr; simpl. by rewrite lookup_insert_ne.
Qed.

Lemma ready_matrix self ie st df : ready self ie st df → matrix st self = Some df.
Proof. intros [He Hf]. unfold matrix. by rewrite He. Qed.

Lemma elem_of_calls ie (ps : list (string * string)) p cell1 cell2 :
  p ∈ ps → cells ie !! p.1 = Some cell1 → cells ie !! p.2 = Some cell2 →
  (cell1, cell2) ∈ calls ie ps.
Proof.
  intros Hp H1 H2. unfold calls. apply list_elem_of_omap.
  exists p. split; [done|]. by rewrite H1, H2.
Qed.

Lemma score_of_Ok ie p s :
  score_of ie p = Ok s →
  ∃ cell1 cell2, cells ie !! p.1 = Some cell1 ∧ cells ie !! p.2 = Some cell2
                 ∧ cci_score_from_binary cell1 cell2 = Ok s.
Proof.
  unfold score_of. intros Hs.
  destruct (cells ie !! p.1) as [cell1|]; [|done].
  destruct (cells ie !! p.2) as [cell2|]; [|done]. eauto.
Qed.

(** The score depends on the cells of the interaction elements only. *)
Lemma fill_ext ie ie' df ps :
  cells ie = cells ie' → fill ie df ps = fill ie' df ps.
Proof.
  intros Hc. revert df. induction ps as [|p ps IH]; intros df; [done|].
  simpl. rewrite IH. unfold fill_step, score_of. by rewrite Hc.
Qed.

End pass_result.

(** ** Symmetry of the matrix *)

Section symmetry.
Context {V : Type} (zero : V) {ext : Collaborators V}.
Variable list_set : list_of_set.
Hypothesis list_set_order : set_order list_set.

(** C2.  After [compute_pairwise_interactions] has completed on a
    constructed InteractionSpace, the CCI matrix holds, for every two cell
    labels [i] and [j], one and the same value at [(i, j)] and at
    [(j, i)]; and every run of the loop body leaves the score it computed
    at both positions of its pair. *)
Theorem cci_matrix_symmetric rnaseq ppi_dict it gene_cutoffs tmpl
    (st st1 st2 : state V) (self : loc) :
  template_ok st tmpl →
  InteractionSpace zero list_set rnaseq ppi_dict it gene_cutoffs tmpl st
  = (st1, Ok self) →
  compute_pairwise_interactions self st1 = (st2, Ok tt) →
  (∃ M, matrix st2 self = Some M
        ∧ ∀ i j, i ∈ cell_labels st2 self → j ∈ cell_labels st2 self →
                 ∃ s, loc_get M i j = Some s ∧ loc_get M j i = Some s)
  ∧ (∀ sta stb pair,
       elements sta self = elements st1 self →
       is_Some (matrix sta self) →
       score_pair self pair sta = (stb, Ok tt) →
       ∃ M s, matrix stb self = Some M
              ∧ loc_get M pair.1 pair.2 = Some s
              ∧ loc_get M pair.2 pair.1 = Some s).
Proof.
  intros Htmpl Hnew Hpass.
  destruct (InteractionSpace_ready _ _ _ _ _ _ _ _ _ _ Hnew Htmpl)
    as (binary & ppi & cells0 & df0 & Hcells & Hinit & Hr & Hlabels & Hsc).
  set (ie := elements_built _ _ _ _ _) in Hr.
  split.
  - destruct (compute_pairwise_interactions_Ok _ _ _ _ _ Hr Hpass)
      as [Hok ->].
    exists (fill ie df0 (pairs ie)). split.
    { apply (ready_matrix _ ie). by eapply ready_assign. }
    rewrite (cell_labels_assign _ _ _ _ _ _ Hr), Hlabels.
    intros i j Hi Hj. apply fill_symmetric; [done|].
    left. by apply elem_of_pairs.
  - intros sta stb pair Hel [df Hm] Hbody.
    destruct Hr as [He _]. rewrite He in Hel.
    assert (ready self ie sta df) as Hra.
    { split; [done|]. unfold matrix in Hm. by rewrite Hel in Hm. }
    rewrite (score_pair_run _ _ _ _ _ Hra) in Hbody.
    destruct (cells ie !! pair.1) as [cell1|]; [|done].
    destruct (cells ie !! pair.2) as [cell2|]; [|done].
    simpl in Hbody.
    destruct (cci_score_from_binary cell1 cell2) as [s|]; [|done].
    injection Hbody as <-.
    exists (write_pair df pair s), s. split_and!.
    + apply (ready_matrix _ ie). by eapply ready_assign.
    + apply loc_get_write_pair_1.
    + apply loc_get_write_pair_2.
Qed.

(** C3, as the code has it.  The calls the pass makes to the scorer cover
    every ordered pair of cell labels: for all labels [i] and [j], [(i, j)]
    is in the pair list and the scorer is called on the cell of [i] with the
    cell of [j].  In particular every cell is scored with itself, and the
    diagonal entry [M[i, i]] ends up holding that score, whatever it was
    initialized to. *)
Theorem diagonal_scored rnaseq ppi_dict it gene_cutoffs tmpl
    (st st1 st2 : state V) (self : loc) :
  template_ok st tmpl →
  InteractionSpace zero list_set rnaseq ppi_dict it gene_cutoffs tmpl st
  = (st1, Ok self) →
  compute_pairwise_interactions self st1 = (st2, Ok tt) →
  ∃ ie M new,
    elements st2 self = Some ie ∧ matrix st2 self = Some M
    ∧ scored st2 = scored st1 ++ new
    ∧ (∀ i j, i ∈ cell_labels st2 self → j ∈ cell_labels st2 self →
         (i, j) ∈ pairs ie
         ∧ ∃ cell1 cell2, cells ie !! i = Some cell1
                          ∧ cells ie !! j = Some cell2
                          ∧ (cell1, cell2) ∈ new)
    ∧ ∀ i, i ∈ cell_labels st2 self →
           (i, i) ∈ pairs ie
           ∧ ∃ cell s, cells ie !! i = Some cell
                       ∧ (cell, cell) ∈ new
                       ∧ (cell, cell) ∈ scored st2
                       ∧ cci_score_from_binary cell cell = Ok s
                       ∧ loc_get M i i = Some s.
Proof.
  intros Htmpl Hnew Hpass.
  destruct (InteractionSpace_ready _ _ _ _ _ _ _ _ _ _ Hnew Htmpl)
    as (binary & ppi & cells0 & df0 & Hcells & Hinit & Hr & Hlabels & Hsc).
  set (ie := elements_built _ _ _ _ _) in Hr.
  destruct (compute_pairwise_interactions_Ok _ _ _ _ _ Hr Hpass)
    as [Hok ->].
  pose proof (ready_assign _ _ _ _ (fill ie df0 (pairs ie))
                (scored st1 ++ calls ie (pairs ie)) Hr) as Hr2.
  exists ie, (fill ie df0 (pairs ie)), (calls ie (pairs ie)). split_and!.
  - by destruct Hr2.
  - by apply (ready_matrix _ ie).
  - done.
  - rewrite (cell_labels_assign _ _ _ _ _ _ Hr), Hlabels. intros i j Hi Hj.
    assert ((i, j) ∈ pairs ie) as Hin by by apply elem_of_pairs.
    split; [done|].
    pose proof (proj1 (Forall_forall _ _) Hok _ Hin) as Hp. cbv beta in Hp.
    destruct (score_of ie (i, j)) as [s|] eqn:Hs; [|done].
    destruct (score_of_Ok _ _ _ Hs) as (cell1 & cell2 & H1 & H2 & _).
    exists cell1, cell2. split_and!; try done.
    by apply (elem_of_calls _ _ (i, j)).
  - rewrite (cell_labels_assign _ _ _ _ _ _ Hr), Hlabels. intros i Hi.
    assert ((i, i) ∈ pairs ie) as Hin by by apply elem_of_pairs.
    split; [done|].
    destruct (fill_diagonal ie df0 _ i Hok Hin) as (s & Hs & Hget).
    destruct (score_of_Ok _ _ _ Hs) as (cell1 & cell2 & H1 & H2 & Hsc').
    simpl in H1, H2. assert (cell2 = cell1) as -> by congruence.
    assert ((cell1, cell1) ∈ calls ie (pairs ie)) as Hcall
      by by apply (elem_of_calls _ _ (i, i)).
    exists cell1, s. split_and!; try done.
    simpl. apply elem_of_app. by right.
Qed.

End symmetry.

(** ** The pairs of an interaction space *)

Section pairs.
Context {V : Type} (zero : V) {ext : Collaborators V}.
Variable list_set : list_of_set.
Hypothesis list_set_order : set_order list_set.

Lemma generate_interaction_elements_Ok binary ppi it tmpl
    (st st' : state V) ie :
  generate_interaction_elements zero list_set binary ppi it tmpl st
  = (st', Ok ie) →
  ∃ cells0 m, cells_from_rnaseq binary = Ok cells0
              ∧ ie = elements_built list_set binary ppi cells0 m.
Proof.
  unfold generate_interaction_elements. cbv zeta.
  rewrite bind_run. unfold lift at 1.
  destruct (cells_from_rnaseq binary) as [cells0|]; [|done].
  rewrite bind_run. intros Hrun. exists cells0.
  destruct tmpl as [t|]; [exists t|eexists]; by injection Hrun as _ <-.
Qed.

(** C1, as the code has it.  For a binary expression table with [C]
    distinct cell labels the pair list holds [C * C] entries: every ordered
    pair of cell labels exactly once, so each [(c, c)] and both orders of
    any two cells. *)
Theorem pairs_all_ordered binary ppi it tmpl (st st' : state V) ie :
  NoDup (columns binary) →
  generate_interaction_elements zero list_set binary ppi it tmpl st
  = (st', Ok ie) →
  length (pairs ie) = length (columns binary) * length (columns binary)
  ∧ NoDup (pairs ie)
  ∧ ∀ x y, (x, y) ∈ pairs ie ↔ x ∈ columns binary ∧ y ∈ columns binary.
Proof.
  intros Hnd (cells0 & m & _ & ->)%generate_interaction_elements_Ok.
  simpl. split_and!.
  - rewrite (pairs_permutation _ _ list_set_order Hnd). apply length_prod.
  - by apply NoDup_pairs.
  - intros x y. by apply elem_of_pairs.
Qed.

End pairs.

(** ** Errors of construction *)

Section errors.
Context {V : Type} (zero : V) {ext : Collaborators V}.
Variable list_set : list_of_set.
Implicit Types (st : state V) (gene_cutoffs : gmap string (cutoff_field V)).

Lemma InteractionSpace_no_type rnaseq ppi_dict it gene_cutoffs tmpl st :
  "type" ∉ dom gene_cutoffs →
  InteractionSpace zero list_set rnaseq ppi_dict it gene_cutoffs tmpl st
  = (bare_instance st, Raise (ValueError no_type_message)).
Proof.
  intros Htype. rewrite InteractionSpace_run. cbv zeta.
  by rewrite decide_False.
Qed.

Lemma attr_bare_instance st name :
  attr (bare_instance st) (fresh (dom (heap st))) name = None.
Proof. unfold attr, bare_instance; simpl. by rewrite lookup_insert_eq. Qed.

(** C4.  A cutoff descriptor that carries a table of thresholds under the
    key ["dataframe"] and names no method is not accepted: construction
    raises the [ValueError] whose message asks for the type of method. *)
Theorem precomputed_table_rejected rnaseq ppi_dict it tmpl st
    (thresholds : DataFrame V) :
  InteractionSpace zero list_set rnaseq ppi_dict it
    {["dataframe" := Table thresholds]} tmpl st
  = (bare_instance st, Raise (ValueError no_type_message)).
Proof.
  apply InteractionSpace_no_type. rewrite dom_singleton_L.
  by intros ?%elem_of_singleton.
Qed.

(** C5.  When [gene_cutoffs] has no ['type'] entry, construction raises
    the [ValueError] of [__init__] and nothing has been built by then: the
    instance has no attribute (no binary expression, no interaction
    elements, hence no cells and no matrix) and no object was added to the
    heap besides the instance. *)
Theorem no_method_raises rnaseq ppi_dict it gene_cutoffs tmpl st :
  "type" ∉ dom gene_cutoffs →
  ∃ st',
    InteractionSpace zero list_set rnaseq ppi_dict it gene_cutoffs tmpl st
    = (st', Raise (ValueError no_type_message))
    ∧ (∀ name, attr st' (fresh (dom (heap st))) name = None)
    ∧ elements st' (fresh (dom (heap st))) = None
    ∧ matrix st' (fresh (dom (heap st))) = None
    ∧ dom (heap st') = {[fresh (dom (heap st))]} ∪ dom (heap st)
    ∧ ∀ l, l ≠ fresh (dom (heap st)) → heap st' !! l = heap st !! l.
Proof.
  intros Htype. exists (bare_instance st). split_and!.
  - by apply InteractionSpace_no_type.
  - apply attr_bare_instance.
  - unfold elements. by rewrite attr_bare_instance.
  - unfold matrix, elements. by rewrite attr_bare_instance.
  - apply dom_insert_L.
  - intros l Hl. simpl. by rewrite lookup_insert_ne.
Qed.

(** C6, as the code has it.  Construction does not look at the labels of a
    template: with any template it returns or raises exactly as it does
    without one, and on success the template is the matrix of the
    instance, left as it was. *)
Theorem template_not_checked rnaseq ppi_dict it gene_cutoffs (t : loc) st :
  (InteractionSpace zero list_set rnaseq ppi_dict it gene_cutoffs
     (Some t) st).2
  = (InteractionSpace zero list_set rnaseq ppi_dict it gene_cutoffs
       None st).2
  ∧ ∀ st1 self,
      InteractionSpace zero list_set rnaseq ppi_dict it gene_cutoffs
        (Some t) st = (st1, Ok self) →
      cci_matrix <$> elements st1 self = Some t
      ∧ (is_Some (frame st t) → frame st1 t = frame st t).
Proof.
  split.
  - rewrite !InteractionSpace_run. cbv zeta.
    case_decide; [|done].
    destruct (get_cutoffs _ _); [|done].
    destruct (get_binary_rnaseq _ _); [|done].
    destruct (ppi_dict !! it); [|done].
    by destruct (cells_from_rnaseq _).
  - intros st1 self Hnew. split.
    + apply InteractionSpace_Ok in Hnew
        as (cv & binary & ppi & cells0 & _ & _ & _ & _ & _ & -> & ->).
      unfold elements, attr; simpl. rewrite lookup_insert_eq.
      unfold attrs_built. by rewrite lookup_insert_eq.
    + intros Hframe.
      assert (template_ok st (Some t)) as Htmpl by by intros ? [= <-].
      pose proof (matrix_loc_ne _ _ Htmpl) as Hne. simpl in Hne.
      apply InteractionSpace_Ok in Hnew
        as (cv & binary & ppi & cells0 & _ & _ & _ & _ & _ & -> & ->).
      unfold frame; simpl. by rewrite lookup_insert_ne.
Qed.

(** C10.  On an instance that construction has just returned,
    [get_genes_for_filter] raises [AttributeError] at its first read, that
    of [product_filter]; [mediators] is not an attribute either. *)
Theorem get_genes_for_filter_raises rnaseq ppi_dict it gene_cutoffs tmpl
    st st1 self :
  InteractionSpace zero list_set rnaseq ppi_dict it gene_cutoffs tmpl st
  = (st1, Ok self) →
  get_genes_for_filter list_set self st1
  = (st1, Raise (AttributeError "product_filter"))
  ∧ attr st1 self "product_filter" = None
  ∧ attr st1 self "mediators" = None.
Proof.
  intros (cv & binary & ppi & cells0 & _ & _ & _ & _ & _ & -> & ->)
    %InteractionSpace_Ok.
  split_and!.
  - unfold get_genes_for_filter, add_genes. cbv zeta.
    rewrite bind_run, bind_run.
    erewrite getattr_missing; [done|apply lookup_insert_eq|].
    unfold attrs_built. by simplify_map_eq.
  - unfold attr; simpl. rewrite lookup_insert_eq.
    unfold attrs_built. by simplify_map_eq.
  - unfold attr; simpl. rewrite lookup_insert_eq.
    unfold attrs_built. by simplify_map_eq.
Qed.

End errors.

(** ** The template is shared with the caller *)

Section aliasing.
Context {V : Type} (zero : V) {ext : Collaborators V}.
Variable list_set : list_of_set.
Hypothesis list_set_order : set_order list_set.


End aliasing.

(** ** Independence of the iteration order *)

Section order.
Context {V : Type} (zero : V) {ext : Collaborators V}.
Variables list_set1 list_set2 : list_of_set.
Hypothesis order1 : set_order list_set1.
Hypothesis order2 : set_order list_set2.
Hypothesis scorer_symmetric : symmetric_scorer.

Lemma score_of_swap binary ppi cells0 m1 m2 ls1 ls2 (p : string * string) :
  is_ok (score_of (elements_built ls1 binary ppi cells0 m1) p) →
  score_of (elements_built ls2 binary ppi cells0 m2) (p.2, p.1)
  = score_of (elements_built ls1 binary ppi cells0 m1) p.
Proof.
  unfold score_of; simpl. rewrite !lookup_fmap.
  destruct (cells0 !! p.1) as [x1|]; simpl; [|done].
  destruct (cells0 !! p.2) as [x2|]; simpl; [|done].
  intros _. apply scorer_symmetric.
Qed.

Lemma elem_of_bind_ext {A B : Type} (f : A → list B) (l k : list A) :
  (∀ y, y ∈ l ↔ y ∈ k) → ∀ x, x ∈ l ≫= f ↔ x ∈ k ≫= f.
Proof.
  intros Hlk x. rewrite !list_elem_of_bind.
  split; intros (y & Hx & Hy); exists y; split; try done; by apply Hlk.
Qed.

(** C7, as the code has it.  When the scorer is symmetric, two runs of
    construction and scoring on the same inputs, each under its own
    iteration order of the pair set, both complete and end with the same
    entry at every pair of labels and the same row and column labels up to
    their order; when the matrix started with all cell labels on both axes
    (as without a template), they end with the same frame. *)
Theorem scoring_order_independent rnaseq ppi_dict it gene_cutoffs tmpl
    (st sa sa' : state V) (self : loc) :
  template_ok st tmpl →
  InteractionSpace zero list_set1 rnaseq ppi_dict it gene_cutoffs tmpl st
  = (sa, Ok self) →
  compute_pairwise_interactions self sa = (sa', Ok tt) →
  ∃ sb sb' Ma Mb,
    InteractionSpace zero list_set2 rnaseq ppi_dict it gene_cutoffs tmpl st
    = (sb, Ok self)
    ∧ compute_pairwise_interactions self sb = (sb', Ok tt)
    ∧ matrix sa' self = Some Ma ∧ matrix sb' self = Some Mb
    ∧ values Ma = values Mb
    ∧ index Ma ≡ₚ index Mb ∧ columns Ma ≡ₚ columns Mb
    ∧ (∀ df0,
         initial_matrix zero st tmpl (cell_labels sa self) = Some df0 →
         cell_labels sa self ⊆ index df0 →
         cell_labels sa self ⊆ columns df0 →
         Ma = Mb)
    ∧ (tmpl = None → Ma = Mb).
Proof.
  intros Htmpl Hnew Hpass.
  destruct (InteractionSpace_built _ _ _ _ _ _ _ _ _ _ Hnew Htmpl)
    as (cv & binary & ppi & cells0 & df0
        & (Ht & Hcv & Hb & Hp & Hc) & Hinit & Hra & Hlabels & _).
  set (m := matrix_loc st tmpl) in *.
  set (iea := elements_built list_set1 binary ppi cells0 m) in *.
  destruct (compute_pairwise_interactions_Ok _ _ _ _ _ Hra Hpass)
    as [Hoka ->].
  assert (self = fresh (dom (heap st))) as Hself.
  { by apply InteractionSpace_Ok in Hnew
      as (? & ? & ? & ? & _ & _ & _ & _ & _ & -> & _). }
  destruct (InteractionSpace_succeeds zero list_set2 _ _ _ _ tmpl st
              _ _ _ _ Ht Hcv Hb Hp Hc) as [sb Hnewb].
  rewrite <- Hself in Hnewb.
  destruct (InteractionSpace_built _ _ _ _ _ _ _ _ _ _ Hnewb Htmpl)
    as (cv' & binary' & ppi' & cells0' & df0'
        & (_ & Hcv' & Hb' & Hp' & Hc') & Hinit' & Hrb & _ & _).
  assert (cv' = cv) as -> by congruence.
  assert (binary' = binary) as -> by congruence.
  assert (ppi' = ppi) as -> by congruence.
  assert (cells0' = cells0) as -> by congruence.
  assert (df0' = df0) as -> by congruence.
  fold m in Hrb.
  set (ieb := elements_built list_set2 binary ppi cells0 m) in *.
  assert (∀ q, q ∈ pairs iea ↔ q ∈ pairs ieb) as Hsame.
  { intros [x y]. simpl. by rewrite !elem_of_pairs. }
  assert (Forall (λ p, is_ok (score_of ieb p)) (pairs ieb)) as Hokb.
  { apply Forall_forall. intros q Hq%Hsame.
    by apply (proj1 (Forall_forall _ _) Hoka) in Hq. }
  destruct (compute_pairwise_interactions_completes _ _ _ _ Hrb Hokb)
    as [sb' Hpassb].
  destruct (compute_pairwise_interactions_Ok _ _ _ _ _ Hrb Hpassb)
    as [_ Hsb'].
  pose proof (ready_assign _ _ _ _ (fill iea df0 (pairs iea))
                (scored sa ++ calls iea (pairs iea)) Hra) as Hra2.
  pose proof (ready_assign _ _ _ _ (fill ieb df0 (pairs ieb))
                (scored sb ++ calls ieb (pairs ieb)) Hrb) as Hrb2.
  rewrite <- Hsb' in Hrb2.
  exists sb, sb', (fill iea df0 (pairs iea)), (fill ieb df0 (pairs ieb)).
  assert (values (fill iea df0 (pairs iea))
          = values (fill ieb df0 (pairs ieb))) as Hvalues.
  { apply map_eq. intros [i j].
    change (loc_get (fill iea df0 (pairs iea)) i j
            = loc_get (fill ieb df0 (pairs ieb)) i j).
    rewrite !loc_get_fill_sym; try done.
    - repeat case_decide; try done; exfalso; rewrite <- !Hsame in *; tauto.
    - intros p Hq. apply score_of_swap.
      by apply (proj1 (Forall_forall _ _) Hokb) in Hq.
    - intros p Hq. apply score_of_swap.
      by apply (proj1 (Forall_forall _ _) Hoka) in Hq. }
  assert (∀ df, initial_matrix zero st tmpl (cell_labels sa self) = Some df →
                cell_labels sa self ⊆ index df →
                cell_labels sa self ⊆ columns df →
                fill iea df0 (pairs iea) = fill ieb df0 (pairs ieb))
    as Hcovered.
  { rewrite Hlabels, Hinit. intros df [= <-] Hidx Hcol.
    assert (∀ (ie : interaction_elements V),
              (∀ x y, (x, y) ∈ pairs ie →
                      x ∈ columns binary ∧ y ∈ columns binary) →
              (pairs ie ≫= λ p, [p.1; p.2]) ⊆ columns binary
              ∧ (pairs ie ≫= λ p, [p.2; p.1]) ⊆ columns binary) as Hsub.
    { intros ie Hie. split; intros x ([a b] & Hx & Hq)%list_elem_of_bind;
        destruct (Hie _ _ Hq); simpl in Hx;
        apply elem_of_cons in Hx as [-> | Hx]; try done;
        by apply list_elem_of_singleton in Hx as ->. }
    destruct (Hsub iea) as [Hia Hca].
    { intros x y. simpl. by rewrite elem_of_pairs. }
    destruct (Hsub ieb) as [Hib Hcb].
    { intros x y. simpl. by rewrite elem_of_pairs. }
    pose proof (index_fill iea df0 _ Hoka) as Hi1.
    pose proof (index_fill ieb df0 _ Hokb) as Hi2.
    pose proof (columns_fill iea df0 _ Hoka) as Hc1.
    pose proof (columns_fill ieb df0 _ Hokb) as Hc2.
    rewrite foldl_enlarge_covered in Hi1, Hi2, Hc1, Hc2
      by (etrans; done).
    destruct (fill iea df0 (pairs iea)), (fill ieb df0 (pairs ieb)).
    simpl in *. congruence. }
  split_and!; try done.
  - by apply (ready_matrix _ iea).
  - by apply (ready_matrix _ ieb).
  - rewrite (index_fill iea df0 _ Hoka), (index_fill ieb df0 _ Hokb).
    apply foldl_enlarge_perm, elem_of_bind_ext, Hsame.
  - rewrite (columns_fill iea df0 _ Hoka), (columns_fill ieb df0 _ Hokb).
    apply foldl_enlarge_perm, elem_of_bind_ext, Hsame.
  - intros ->. apply (Hcovered (zeros zero (cell_labels sa self))).
    + done.
    + done.
    + done.
Qed.

End order.

(** ** The scorer of the specification *)

(** Filtering by two predicates that agree on the elements of the list. *)
Lemma filter_ext_in {A : Type} (P1 P2 : A → Prop)
    `{!∀ z, Decision (P1 z), !∀ z, Decision (P2 z)} (l : list A) :
  (∀ z, z ∈ l → P1 z ↔ P2 z) → filter P1 l = filter P2 l.
Proof.
  induction l as [|y l IH]; intros Hext; [done|].
  rewrite !filter_cons.
  rewrite IH by (intros z Hz; apply Hext; by right).
  destruct (decide (P1 y)) as [H1|H1], (decide (P2 y)) as [H2|H2];
    try done; destruct (Hext y); try tauto; by left.
Qed.

Section reference_scorer.
Variable a : Reference.aggregation.
Implicit Types (ppi : list (edge Q)) (x : Cell Q) (e : edge Q)
  (expr : gmap string bool).

Local Abbreviation restricted ppi x :=
  (with_binary_ppi (ext := Reference.collaborators a) ppi x).
Local Abbreviation scoring cell1 cell2 :=
  (pairwise_interaction (ext := Reference.collaborators a) cell1 cell2).

Lemma both_active_fst expr e e' :
  e.1 = e'.1 →
  Reference.both_active expr e = Reference.both_active expr e'.
Proof. unfold Reference.both_active. by intros ->. Qed.

(** The edges that count for two cells of one interaction space are those
    of the reference whose proteins are active in both cells. *)
Lemma qualifying_restricted ppi x1 x2 :
  Reference.qualifying (restricted ppi x1) (restricted ppi x2)
  = filter (λ e, Reference.both_active (rnaseq_data x2) e
                 ∧ Reference.both_active (rnaseq_data x1) e) ppi.
Proof.
  unfold Reference.qualifying, with_binary_ppi; simpl.
  unfold Reference.get_binary_ppi. rewrite list_filter_filter.
  apply filter_ext_in. intros e He.
  rewrite list_elem_of_fmap. setoid_rewrite list_elem_of_filter.
  split.
  - intros [(e' & Heq & Hact & _) H1]. split; [|done].
    by rewrite (both_active_fst _ e e').
  - intros [H2 H1]. split; [|done]. by exists e.
Qed.

Lemma qualifying_symmetric ppi x1 x2 :
  Reference.qualifying (restricted ppi x1) (restricted ppi x2)
  = Reference.qualifying (restricted ppi x2) (restricted ppi x1).
Proof.
  rewrite !qualifying_restricted. apply list_filter_iff. tauto.
Qed.

Lemma reference_scorer_symmetric :
  symmetric_scorer (ext := Reference.collaborators a).
Proof.
  intros ppi x1 x2. simpl. unfold Reference.cci_score_from_binary.
  by rewrite qualifying_symmetric.
Qed.

Lemma aggregate_nil : Reference.aggregate a [] = 0%Q.
Proof. by destruct a. Qed.

(** C8.  For two cells of an interaction space (each with the PPI
    reference restricted to its own active proteins) the score of the pair
    is the same in both orders, and it is 0 when no edge qualifies. *)
Theorem pairwise_interaction_symmetric ppi x1 x2 (st : state Q) :
  (scoring (restricted ppi x1) (restricted ppi x2) st).2
  = (scoring (restricted ppi x2) (restricted ppi x1) st).2
  ∧ (Reference.qualifying (restricted ppi x1) (restricted ppi x2) = [] →
     (scoring (restricted ppi x1) (restricted ppi x2) st).2 = Ok 0%Q).
Proof.
  unfold pairwise_interaction; simpl.
  unfold Reference.cci_score_from_binary. split.
  - by rewrite qualifying_symmetric.
  - intros ->. simpl. by rewrite aggregate_nil.
Qed.

(** A cell that expresses nothing has an empty network, and no edge
    qualifies for a pair it is part of. *)
Lemma silent_cell_scores_zero ppi x1 x2 :
  (∀ g, Reference.active (rnaseq_data x1) g = false) →
  binary_ppi (restricted ppi x1) = []
  ∧ Reference.cci_score_from_binary a (restricted ppi x1) (restricted ppi x2)
    = Ok 0%Q
  ∧ Reference.cci_score_from_binary a (restricted ppi x2) (restricted ppi x1)
    = Ok 0%Q.
Proof.
  intros Hsilent.
  assert (∀ l : list (edge Q),
            filter (λ e, Reference.both_active (rnaseq_data x1) e) l = [])
    as Hnil.
  { induction l as [|e l IH]; [done|]. rewrite filter_cons_False; [done|].
    unfold Reference.both_active. rewrite (Hsilent e.1.1). simpl. tauto. }
  assert (Reference.qualifying (restricted ppi x1) (restricted ppi x2) = [])
    as Hq by (unfold Reference.qualifying; simpl;
              unfold Reference.get_binary_ppi; by rewrite Hnil).
  split_and!.
  - simpl. apply Hnil.
  - unfold Reference.cci_score_from_binary. rewrite Hq. simpl.
    by rewrite aggregate_nil.
  - unfold Reference.cci_score_from_binary.
    rewrite <- qualifying_symmetric, Hq. simpl. by rewrite aggregate_nil.
Qed.

End reference_scorer.

(** ** Scenario A, run *)

Lemma reference_list_set_order : set_order Reference.list_set.
Proof. intros A E l. reflexivity. Qed.

Lemma reversed_list_set_order : set_order ScenarioA.list_set_rev.
Proof. intros A E l. apply reverse_Permutation. Qed.

Lemma template_ok_None {V : Type} (st : state V) : template_ok st None.
Proof. by intros t. Qed.

Lemma template_ok_st0 (df : DataFrame Q) :
  template_ok (ScenarioA.st0 df) (Some 1%positive).
Proof. intros t [= <-]. by exists df. Qed.

(** The binarizer of the reference gives the binary table of the scenario. *)
Example scenario_binary :
  attr (ScenarioA.constructed None ScenarioA.empty) 1 "binary_rnaseq"
  = Some (VBinary ScenarioA.binary).
Proof. vm_compute. reflexivity. Qed.

(** The scores of scenario A: 0.8 between the two cells that express both
    genes, 0 with the cell that expresses only [g1]. *)
Example scenario_scores :
  let M := matrix (ScenarioA.completed 1 None ScenarioA.empty) 1 in
  (M ≫= λ M, loc_get M "A" "B") = Some (4 # 5)%Q
  ∧ (M ≫= λ M, loc_get M "B" "A") = Some (4 # 5)%Q
  ∧ (M ≫= λ M, loc_get M "A" "C") = Some 0%Q
  ∧ (M ≫= λ M, loc_get M "C" "B") = Some 0%Q.
Proof. vm_compute. done. Qed.

(** C1: on the three cells of scenario A the pair list has 9 entries. *)
Lemma pairs_all_ordered_witness :
  set_order Reference.list_set
  ∧ NoDup (columns ScenarioA.binary)
  ∧ ∃ st' ie,
      generate_interaction_elements 0%Q
        (ext := Reference.collaborators Reference.Sum) Reference.list_set
        ScenarioA.binary ScenarioA.ppi "physical" None ScenarioA.empty
      = (st', Ok ie)
      ∧ length (pairs ie)
        = length (columns ScenarioA.binary)
          * length (columns ScenarioA.binary)
      ∧ NoDup (pairs ie)
      ∧ ∀ x y, (x, y) ∈ pairs ie
               ↔ x ∈ columns ScenarioA.binary ∧ y ∈ columns ScenarioA.binary.
Proof.
  split; [exact reference_list_set_order|].
  assert (NoDup (columns ScenarioA.binary)) as Hnd
    by (apply (bool_decide_unpack _); vm_compute; exact I).
  split; [exact Hnd|].
  eexists _, _. split; [vm_compute; reflexivity|].
  eapply (pairs_all_ordered 0%Q (ext := Reference.collaborators Reference.Sum)
            Reference.list_set reference_list_set_order ScenarioA.binary
            ScenarioA.ppi "physical" None ScenarioA.empty);
    [exact Hnd|vm_compute; reflexivity].
Defined.

(** C1 as stated fails: three cells give 9 pairs, not 3; [("A", "A")] is one
    of them, and so are [("A", "B")] and [("B", "A")]. *)
Lemma pairs_counterexample :
  ∃ ie, elements (ScenarioA.constructed None ScenarioA.empty) 1 = Some ie
        ∧ length (columns ScenarioA.binary) = 3
        ∧ length (pairs ie) = 9
        ∧ length (pairs ie) ≠ 3 * (3 - 1) / 2
        ∧ ("A", "A") ∈ pairs ie
        ∧ ("A", "B") ∈ pairs ie
        ∧ ("B", "A") ∈ pairs ie.
Proof.
  eexists. split; [vm_compute; reflexivity|]. simpl.
  split_and!; [done|done|by vm_compute|..];
    apply (bool_decide_unpack _); vm_compute; exact I.
Qed.

(** C2: scenario A on a template that is not symmetric. *)
Lemma cci_matrix_symmetric_witness :
  let st := ScenarioA.st0 ScenarioA.template in
  let st1 := ScenarioA.constructed (Some 1%positive) st in
  let st2 := ScenarioA.completed 2 (Some 1%positive) st in
  set_order Reference.list_set
  ∧ template_ok st (Some 1%positive)
  ∧ ScenarioA.new ScenarioA.gene_cutoffs (Some 1%positive) st
    = (st1, Ok 2%positive)
  ∧ ScenarioA.pass 2 st1 = (st2, Ok tt)
  ∧ ∃ M, matrix st2 2 = Some M
         ∧ ∀ i j, i ∈ cell_labels st2 2 → j ∈ cell_labels st2 2 →
                  ∃ s, loc_get M i j = Some s ∧ loc_get M j i = Some s.
Proof.
  cbv zeta.
  assert (ScenarioA.new ScenarioA.gene_cutoffs (Some 1%positive)
            (ScenarioA.st0 ScenarioA.template)
          = (ScenarioA.constructed (Some 1%positive)
               (ScenarioA.st0 ScenarioA.template), Ok 2%positive)) as Hnew
    by (vm_compute; reflexivity).
  assert (ScenarioA.pass 2
            (ScenarioA.constructed (Some 1%positive)
               (ScenarioA.st0 ScenarioA.template))
          = (ScenarioA.completed 2 (Some 1%positive)
               (ScenarioA.st0 ScenarioA.template), Ok tt)) as Hpass
    by (vm_compute; reflexivity).
  split_and!;
    [exact reference_list_set_order|apply template_ok_st0|exact Hnew
    |exact Hpass|].
  exact (proj1 (cci_matrix_symmetric 0%Q Reference.list_set
                  reference_list_set_order _ _ _ _ _ _ _ _ _
                  (template_ok_st0 _) Hnew Hpass)).
Defined.

(** C3: scenario A without a template. *)
Lemma diagonal_scored_witness :
  let st1 := ScenarioA.constructed None ScenarioA.empty in
  let st2 := ScenarioA.completed 1 None ScenarioA.empty in
  set_order Reference.list_set
  ∧ template_ok ScenarioA.empty None
  ∧ ScenarioA.new ScenarioA.gene_cutoffs None ScenarioA.empty
    = (st1, Ok 1%positive)
  ∧ ScenarioA.pass 1 st1 = (st2, Ok tt)
  ∧ ∃ ie M new,
      elements st2 1 = Some ie ∧ matrix st2 1 = Some M
      ∧ scored st2 = scored st1 ++ new
      ∧ (∀ i j, i ∈ cell_labels st2 1 → j ∈ cell_labels st2 1 →
           (i, j) ∈ pairs ie
           ∧ ∃ cell1 cell2, cells ie !! i = Some cell1
                            ∧ cells ie !! j = Some cell2
                            ∧ (cell1, cell2) ∈ new)
      ∧ ∀ i, i ∈ cell_labels st2 1 →
             (i, i) ∈ pairs ie
             ∧ ∃ cell s, cells ie !! i = Some cell
                         ∧ (cell, cell) ∈ new
                         ∧ (cell, cell) ∈ scored st2
                         ∧ Reference.cci_score_from_binary Reference.Sum
                             cell cell = Ok s
                         ∧ loc_get M i i = Some s.
Proof.
  cbv zeta.
  assert (ScenarioA.new ScenarioA.gene_cutoffs None ScenarioA.empty
          = (ScenarioA.constructed None ScenarioA.empty, Ok 1%positive))
    as Hnew by (vm_compute; reflexivity).
  assert (ScenarioA.pass 1 (ScenarioA.constructed None ScenarioA.empty)
          = (ScenarioA.completed 1 None ScenarioA.empty, Ok tt)) as Hpass
    by (vm_compute; reflexivity).
  split_and!;
    [exact reference_list_set_order|apply template_ok_None|exact Hnew
    |exact Hpass|].
  exact (diagonal_scored 0%Q Reference.list_set reference_list_set_order
           _ _ _ _ _ _ _ _ _ (template_ok_None _) Hnew Hpass).
Defined.

(** C3 as stated fails: in scenario A the first call of the scorer is on
    cell [A] paired with itself, and the diagonal entry of [A], initialized
    to 0, holds 0.8 after the pass. *)
Lemma diagonal_counterexample :
  let st1 := ScenarioA.constructed None ScenarioA.empty in
  let st2 := ScenarioA.completed 1 None ScenarioA.empty in
  ScenarioA.new ScenarioA.gene_cutoffs None ScenarioA.empty
  = (st1, Ok 1%positive)
  ∧ ScenarioA.pass 1 st1 = (st2, Ok tt)
  ∧ scored st2 !! 0%nat = Some (ScenarioA.cell_A, ScenarioA.cell_A)
  ∧ (matrix st1 1 ≫= λ M, loc_get M "A" "A") = Some 0%Q
  ∧ (matrix st2 1 ≫= λ M, loc_get M "A" "A") = Some (4 # 5)%Q.
Proof. vm_compute. done. Qed.

(** C4 on scenario A: the descriptor that carries the thresholds of both
    genes is rejected, and the instance is left without attributes. *)
Example precomputed_table_scenario :
  ScenarioA.new ScenarioA.precomputed None ScenarioA.empty
  = (bare_instance ScenarioA.empty, Raise (ValueError no_type_message))
  ∧ ¬ "type" ∈ dom ScenarioA.precomputed
  ∧ is_Some (ScenarioA.precomputed !! "dataframe").
Proof.
  assert ("type" ∉ dom ScenarioA.precomputed) as Htype.
  { unfold ScenarioA.precomputed. rewrite dom_singleton_L.
    by intros ?%elem_of_singleton. }
  split_and!; [by apply InteractionSpace_no_type|done|].
  unfold ScenarioA.precomputed. rewrite lookup_singleton_eq. eauto.
Qed.

(** C5: the empty descriptor. *)
Lemma no_method_raises_witness :
  ¬ "type" ∈ dom (∅ : gmap string (cutoff_field Q))
  ∧ ∃ st',
      ScenarioA.new ∅ None ScenarioA.empty
      = (st', Raise (ValueError no_type_message))
      ∧ (∀ name, attr st' (fresh (dom (heap ScenarioA.empty))) name = None)
      ∧ elements st' (fresh (dom (heap ScenarioA.empty))) = None
      ∧ matrix st' (fresh (dom (heap ScenarioA.empty))) = None
      ∧ dom (heap st')
        = {[fresh (dom (heap ScenarioA.empty))]} ∪ dom (heap ScenarioA.empty)
      ∧ ∀ l, l ≠ fresh (dom (heap ScenarioA.empty)) →
             heap st' !! l = heap ScenarioA.empty !! l.
Proof.
  assert ("type" ∉ dom (∅ : gmap string (cutoff_field Q))) as Htype
    by (rewrite dom_empty_L; apply not_elem_of_empty).
  split; [exact Htype|].
  exact (no_method_raises 0%Q Reference.list_set ScenarioA.rnaseq
           ScenarioA.ppi_dict "physical" ∅ None ScenarioA.empty Htype).
Defined.

(** C6 as stated fails: with a template whose labels are [X] and [Y], while
    the cells are [A], [B] and [C], construction returns the instance. *)
Lemma template_counterexample :
  let st := ScenarioA.st0 ScenarioA.mismatched in
  let st1 := ScenarioA.constructed (Some 1%positive) st in
  ScenarioA.new ScenarioA.gene_cutoffs (Some 1%positive) st
  = (st1, Ok 2%positive)
  ∧ cell_labels st1 2 = ["A"; "B"; "C"]
  ∧ (index <$> matrix st1 2) = Some ["X"; "Y"]
  ∧ (columns <$> matrix st1 2) = Some ["X"; "Y"].
Proof. vm_compute. done. Qed.


(** The caller's template before and after the pass of scenario A. *)
Example template_changed :
  let st := ScenarioA.st0 ScenarioA.template in
  (frame st 1 ≫= λ M, loc_get M "A" "B") = Some 1%Q
  ∧ (frame (ScenarioA.completed 2 (Some 1%positive) st) 1
       ≫= λ M, loc_get M "A" "B") = Some (4 # 5)%Q.
Proof. vm_compute. done. Qed.

(** C10: the instance of scenario A. *)
Lemma get_genes_for_filter_raises_witness :
  let st1 := ScenarioA.constructed None ScenarioA.empty in
  ScenarioA.new ScenarioA.gene_cutoffs None ScenarioA.empty
  = (st1, Ok 1%positive)
  ∧ get_genes_for_filter Reference.list_set 1 st1
    = (st1, Raise (AttributeError "product_filter"))
  ∧ attr st1 1 "product_filter" = None
  ∧ attr st1 1 "mediators" = None.
Proof.
  cbv zeta.
  assert (ScenarioA.new ScenarioA.gene_cutoffs None ScenarioA.empty
          = (ScenarioA.constructed None ScenarioA.empty, Ok 1%positive))
    as Hnew by (vm_compute; reflexivity).
  split; [exact Hnew|].
  exact (get_genes_for_filter_raises 0%Q Reference.list_set
           _ _ _ _ _ _ _ _ Hnew).
Defined.

(** C7: scenario A on the mismatched template, under [remove_dups] and
    under its reverse. *)
Lemma scoring_order_independent_witness :
  let st := ScenarioA.st0 ScenarioA.mismatched in
  let sa := ScenarioA.constructed (Some 1%positive) st in
  let sa' := ScenarioA.completed 2 (Some 1%positive) st in
  set_order Reference.list_set
  ∧ set_order ScenarioA.list_set_rev
  ∧ symmetric_scorer (ext := Reference.collaborators Reference.Sum)
  ∧ template_ok st (Some 1%positive)
  ∧ ScenarioA.new ScenarioA.gene_cutoffs (Some 1%positive) st
    = (sa, Ok 2%positive)
  ∧ ScenarioA.pass 2 sa = (sa', Ok tt)
  ∧ ∃ sb sb' Ma Mb,
      InteractionSpace 0%Q (ext := Reference.collaborators Reference.Sum)
        ScenarioA.list_set_rev ScenarioA.rnaseq ScenarioA.ppi_dict
        "physical" ScenarioA.gene_cutoffs (Some 1%positive) st
      = (sb, Ok 2%positive)
      ∧ compute_pairwise_interactions
          (ext := Reference.collaborators Reference.Sum) 2 sb = (sb', Ok tt)
      ∧ matrix sa' 2 = Some Ma ∧ matrix sb' 2 = Some Mb
      ∧ values Ma = values Mb
      ∧ index Ma ≡ₚ index Mb ∧ columns Ma ≡ₚ columns Mb.
Proof.
  cbv zeta.
  assert (ScenarioA.new ScenarioA.gene_cutoffs (Some 1%positive)
            (ScenarioA.st0 ScenarioA.mismatched)
          = (ScenarioA.constructed (Some 1%positive)
               (ScenarioA.st0 ScenarioA.mismatched), Ok 2%positive)) as Hnew
    by (vm_compute; reflexivity).
  assert (ScenarioA.pass 2
            (ScenarioA.constructed (Some 1%positive)
               (ScenarioA.st0 ScenarioA.mismatched))
          = (ScenarioA.completed 2 (Some 1%positive)
               (ScenarioA.st0 ScenarioA.mismatched), Ok tt)) as Hpass
    by (vm_compute; reflexivity).
  split_and!;
    [exact reference_list_set_order|exact reversed_list_set_order
    |exact (reference_scorer_symmetric Reference.Sum)
    |apply template_ok_st0|exact Hnew|exact Hpass|].
  destruct (scoring_order_independent 0%Q Reference.list_set
              ScenarioA.list_set_rev reference_list_set_order
              reversed_list_set_order
              (reference_scorer_symmetric Reference.Sum)
              _ _ _ _ _ _ _ _ _ (template_ok_st0 _) Hnew Hpass)
    as (sb & sb' & Ma & Mb & H1 & H2 & H3 & H4 & H5 & H6 & H7 & _).
  exists sb, sb', Ma, Mb. split_and!; assumption.
Defined.

(** C7 as stated fails.  Under a scorer that is not symmetric the entry of
    [A] and [C] is the score of whichever of [("A", "C")] and [("C", "A")]
    comes last in the pair list, so the two iteration orders give different
    matrices on the same inputs.  Under the scorer of the specification, on
    a template without the cell labels, the two orders give frames whose
    labels are in different orders. *)
Lemma scoring_order_counterexample :
  let a := ScenarioB.run ScenarioB.one_sided Reference.list_set None
             ScenarioA.empty in
  let b := ScenarioB.run ScenarioB.one_sided ScenarioA.list_set_rev None
             ScenarioA.empty in
  let c := ScenarioB.run (Reference.collaborators Reference.Sum)
             Reference.list_set (Some 1%positive)
             (ScenarioA.st0 ScenarioA.mismatched) in
  let d := ScenarioB.run (Reference.collaborators Reference.Sum)
             ScenarioA.list_set_rev (Some 1%positive)
             (ScenarioA.st0 ScenarioA.mismatched) in
  set_order Reference.list_set
  ∧ set_order ScenarioA.list_set_rev
  ∧ a.2 = Ok 1%positive ∧ b.2 = Ok 1%positive
  ∧ (matrix a.1 1 ≫= λ M, loc_get M "A" "C") = Some (4 # 5)%Q
  ∧ (matrix b.1 1 ≫= λ M, loc_get M "A" "C") = Some 0%Q
  ∧ matrix a.1 1 ≠ matrix b.1 1
  ∧ c.2 = Ok 2%positive ∧ d.2 = Ok 2%positive
  ∧ (index <$> matrix c.1 2) = Some ["X"; "Y"; "A"; "B"; "C"]
  ∧ (index <$> matrix d.1 2) = Some ["X"; "Y"; "B"; "C"; "A"]
  ∧ matrix c.1 2 ≠ matrix d.1 2.
Proof.
  cbv zeta.
  split; [exact reference_list_set_order|].
  split; [exact reversed_list_set_order|].
  assert (∀ (x y : option (DataFrame Q)) (f : DataFrame Q → option Q),
            x ≫= f ≠ y ≫= f → x ≠ y) as Hvalue by (intros x y f H ->; done).
  assert (∀ (x y : option (DataFrame Q)),
            index <$> x ≠ index <$> y → x ≠ y) as Hindex
    by (intros x y H ->; done).
  split_and!; try (vm_compute; reflexivity).
  - apply (Hvalue _ _ (λ M, loc_get M "A" "C")). vm_compute. discriminate.
  - apply Hindex. vm_compute. discriminate.
Qed.

(** The two orders do append the missing labels in different orders: on a
    template without the cell labels the frames agree entry by entry and
    not in the order of their labels. *)
Example enlargement_follows_the_order :
  let st := ScenarioA.st0 ScenarioA.mismatched in
  let run list_set :=
    (self ← InteractionSpace 0%Q
               (ext := Reference.collaborators Reference.Sum) list_set
               ScenarioA.rnaseq ScenarioA.ppi_dict "physical"
               ScenarioA.gene_cutoffs (Some 1%positive);
     compute_pairwise_interactions
       (ext := Reference.collaborators Reference.Sum) self) st in
  (index <$> frame (run Reference.list_set).1 1)
  = Some ["X"; "Y"; "A"; "B"; "C"]
  ∧ (index <$> frame (run ScenarioA.list_set_rev).1 1)
    = Some ["X"; "Y"; "B"; "C"; "A"].
Proof. vm_compute. done. Qed.

(** * Further properties of the module *)

(** ** Outcomes of construction *)

Section outcomes.
Context {V : Type} (zero : V) {ext : Collaborators V}.
Variable list_set : list_of_set.
Implicit Types (st : state V) (gene_cutoffs : gmap string (cutoff_field V)).


(** X2.  When [interaction_type] is not a key of [ppi_dict], construction
    raises [KeyError] after it has attached the binary expression and the
    interaction type to the instance: those two attributes are set, the PPI
    data and the interaction elements are not, and no matrix has been
    allocated. *)
Theorem missing_interaction_type_raises rnaseq ppi_dict it gene_cutoffs tmpl
    st cutoff_values binary :
  "type" ∈ dom gene_cutoffs →
  get_cutoffs rnaseq gene_cutoffs = Ok cutoff_values →
  get_binary_rnaseq rnaseq cutoff_values = Ok binary →
  ppi_dict !! it = None →
  ∃ st',
    InteractionSpace zero list_set rnaseq ppi_dict it gene_cutoffs tmpl st
    = (st', Raise (KeyError it))
    ∧ attr st' (fresh (dom (heap st))) "binary_rnaseq"
      = Some (VBinary binary)
    ∧ attr st' (fresh (dom (heap st))) "interaction_type" = Some (VStr it)
    ∧ attr st' (fresh (dom (heap st))) "ppi_data" = None
    ∧ elements st' (fresh (dom (heap st))) = None
    ∧ dom (heap st') = {[fresh (dom (heap st))]} ∪ dom (heap st).
Proof.
  intros Ht Hcv Hb Hp. rewrite InteractionSpace_run. cbv zeta.
  rewrite decide_True, Hcv, Hb, Hp by done.
  eexists. split; [done|].
  unfold elements, attr; simpl. rewrite lookup_insert_eq.
  split_and!; try by simplify_map_eq.
  apply dom_insert_L.
Qed.

(** X3.  An exception of the cutoff resolver or of the binarizer passes
    through construction unchanged and leaves the instance without any
    attribute; one of the cell registry passes through unchanged after the
    binary expression, the interaction type and the PPI data have been
    attached, and before any matrix is allocated. *)
Theorem collaborator_exception_propagates rnaseq ppi_dict it gene_cutoffs
    tmpl st (e : exn) :
  "type" ∈ dom gene_cutoffs →
  (get_cutoffs rnaseq gene_cutoffs = Raise e →
   InteractionSpace zero list_set rnaseq ppi_dict it gene_cutoffs tmpl st
   = (bare_instance st, Raise e))
  ∧ (∀ cutoff_values,
       get_cutoffs rnaseq gene_cutoffs = Ok cutoff_values →
       get_binary_rnaseq rnaseq cutoff_values = Raise e →
       InteractionSpace zero list_set rnaseq ppi_dict it gene_cutoffs tmpl st
       = (bare_instance st, Raise e))
  ∧ (∀ cutoff_values binary ppi,
       get_cutoffs rnaseq gene_cutoffs = Ok cutoff_values →
       get_binary_rnaseq rnaseq cutoff_values = Ok binary →
       ppi_dict !! it = Some ppi →
       cells_from_rnaseq binary = Raise e →
       ∃ st',
         InteractionSpace zero list_set rnaseq ppi_dict it gene_cutoffs
           tmpl st = (st', Raise e)
         ∧ attr st' (fresh (dom (heap st))) "ppi_data" = Some (VPPI ppi)
         ∧ elements st' (fresh (dom (heap st))) = None
         ∧ dom (heap st') = {[fresh (dom (heap st))]} ∪ dom (heap st)).
Proof.
  intros Ht. split_and!.
  - intros Hcv. rewrite InteractionSpace_run. cbv zeta.
    by rewrite decide_True, Hcv.
  - intros cv Hcv Hb. rewrite InteractionSpace_run. cbv zeta.
    by rewrite decide_True, Hcv, Hb.
  - intros cv binary ppi Hcv Hb Hp Hc. rewrite InteractionSpace_run.
    cbv zeta. rewrite decide_True, Hcv, Hb, Hp, Hc by done.
    eexists. split; [done|].
    unfold elements, attr; simpl. rewrite lookup_insert_eq.
    split_and!; try by simplify_map_eq.
    apply dom_insert_L.
Qed.

Lemma InteractionSpace_heap_subseteq rnaseq ppi_dict it gene_cutoffs tmpl st :
  heap st
  ⊆ heap (InteractionSpace zero list_set rnaseq ppi_dict it gene_cutoffs
            tmpl st).1.
Proof.
  rewrite InteractionSpace_run. cbv zeta.
  assert (∀ o : object V,
            heap st ⊆ <[fresh (dom (heap st)) := o]> (heap st)) as Hself
    by (intros o; apply insert_subseteq, fresh_heap).
  case_decide; [|apply Hself].
  destruct (get_cutoffs _ _); [|apply Hself].
  destruct (get_binary_rnaseq _ _) as [binary|]; [|apply Hself].
  destruct (ppi_dict !! it); [|apply Hself].
  destruct (cells_from_rnaseq _); [|apply Hself].
  simpl. destruct tmpl as [t|]; [apply Hself|].
  etrans; [|apply insert_mono, insert_subseteq].
  - apply Hself.
  - apply not_elem_of_dom. intros Hin.
    apply (is_fresh ({[fresh (dom (heap st))]} ∪ dom (heap st))).
    apply elem_of_union. by right.
Qed.

(** X4.  Whatever its outcome, construction leaves every object the caller
    already had as it was, makes no call to the scorer, and adds to the heap
    the instance and at most one more object, the matrix of zeros. *)
Theorem InteractionSpace_preserves_heap rnaseq ppi_dict it gene_cutoffs tmpl
    st :
  heap st
  ⊆ heap (InteractionSpace zero list_set rnaseq ppi_dict it gene_cutoffs
            tmpl st).1
  ∧ scored (InteractionSpace zero list_set rnaseq ppi_dict it gene_cutoffs
              tmpl st).1 = scored st
  ∧ dom (heap (InteractionSpace zero list_set rnaseq ppi_dict it
                 gene_cutoffs tmpl st).1)
    ⊆ {[fresh (dom (heap st)); matrix_loc st None]} ∪ dom (heap st).
Proof.
  split; [apply InteractionSpace_heap_subseteq|].
  rewrite InteractionSpace_run. cbv zeta.
  assert (∀ o : object V,
            dom (<[fresh (dom (heap st)) := o]> (heap st))
            ⊆ {[fresh (dom (heap st)); matrix_loc st None]} ∪ dom (heap st))
    as Hself.
  { intros o. rewrite dom_insert_L. apply elem_of_subseteq. intros x.
    rewrite !elem_of_union. tauto. }
  case_decide; [|by split; [|apply Hself]].
  destruct (get_cutoffs _ _); [|by split; [|apply Hself]].
  destruct (get_binary_rnaseq _ _) as [binary|]; [|by split; [|apply Hself]].
  destruct (ppi_dict !! it); [|by split; [|apply Hself]].
  destruct (cells_from_rnaseq _); [|by split; [|apply Hself]].
  simpl. split; [done|]. destruct tmpl as [t|]; [apply Hself|].
  rewrite !dom_insert_L. simpl. apply elem_of_subseteq. intros x.
  rewrite !elem_of_union. tauto.
Qed.

End outcomes.

(** ** What construction leaves on the instance *)

Lemma loc_get_zeros {V : Type} (zero : V) (labels : list string) i j :
  loc_get (zeros zero labels) i j
  = if decide (i ∈ labels ∧ j ∈ labels) then Some zero else None.
Proof.
  unfold loc_get, zeros; simpl. rewrite lookup_gset_to_gmap.
  assert ((i, j) ∈ (list_to_set (list_prod labels labels)
                      : gset (string * string))
          ↔ i ∈ labels ∧ j ∈ labels) as Hin
    by by rewrite elem_of_list_to_set, !list_elem_of_In, in_prod_iff.
  case_decide as Hd.
  - rewrite option_guard_True by by apply Hin. done.
  - rewrite option_guard_False by by rewrite Hin. done.
Qed.

Section instance.
Context {V : Type} (zero : V) {ext : Collaborators V}.
Variable list_set : list_of_set.
Implicit Types (st : state V) (gene_cutoffs : gmap string (cutoff_field V)).

(** X5.  A constructed instance holds the interaction type it was given, the
    PPI table that [ppi_dict] has under that type, and one cell per entry of
    the cell registry: each is the registry's cell with its binary PPI set to
    the PPI table restricted by that cell's own expression. *)
Theorem constructed_attributes rnaseq ppi_dict it gene_cutoffs tmpl st st1
    self :
  InteractionSpace zero list_set rnaseq ppi_dict it gene_cutoffs tmpl st
  = (st1, Ok self) →
  attr st1 self "interaction_type" = Some (VStr it)
  ∧ ∃ binary ppi cells0 ie,
      ppi_dict !! it = Some ppi
      ∧ attr st1 self "ppi_data" = Some (VPPI ppi)
      ∧ attr st1 self "binary_rnaseq" = Some (VBinary binary)
      ∧ cells_from_rnaseq binary = Ok cells0
      ∧ elements st1 self = Some ie
      ∧ dom (cells ie) = dom cells0
      ∧ ∀ k cell,
          cells ie !! k = Some cell →
          ∃ cell0, cells0 !! k = Some cell0
                   ∧ type cell = type cell0
                   ∧ rnaseq_data cell = rnaseq_data cell0
                   ∧ binary_ppi cell
                     = get_binary_ppi ppi (rnaseq_data cell0).
Proof.
  intros (cv & binary & ppi & cells0 & _ & _ & _ & Hp & Hc & -> & ->)
    %InteractionSpace_Ok.
  unfold elements, attr; simpl. rewrite lookup_insert_eq.
  unfold attrs_built. split; [by simplify_map_eq|].
  exists binary, ppi, cells0. eexists.
  split_and!; try done; try by simplify_map_eq.
  - simpl. apply dom_fmap_L.
  - intros k cell. simpl. rewrite lookup_fmap.
    destruct (cells0 !! k) as [cell0|]; simpl; [|done].
    intros [= <-]. by exists cell0.
Qed.

(** X6.  Without a template the matrix of a constructed instance is a new
    frame, apart from every object of the caller, whose rows and columns are
    the cell labels in the order of the table and whose entries are all
    zero. *)
Theorem initial_matrix_is_zero rnaseq ppi_dict it gene_cutoffs st st1 self :
  InteractionSpace zero list_set rnaseq ppi_dict it gene_cutoffs None st
  = (st1, Ok self) →
  ∃ ie M,
    elements st1 self = Some ie
    ∧ heap st !! cci_matrix ie = None
    ∧ matrix st1 self = Some M
    ∧ index M = cell_labels st1 self
    ∧ columns M = cell_labels st1 self
    ∧ ∀ i j,
        loc_get M i j
        = if decide (i ∈ cell_labels st1 self ∧ j ∈ cell_labels st1 self)
          then Some zero else None.
Proof.
  intros Hnew.
  assert (template_ok st None) as Htmpl by by intros t.
  destruct (InteractionSpace_built _ _ _ _ _ _ _ _ _ _ Hnew Htmpl)
    as (cv & binary & ppi & cells0 & df0 & _ & Hinit & Hr & Hlabels & _).
  simpl in Hinit. injection Hinit as <-.
  eexists _, _. split_and!.
  - by destruct Hr.
  - simpl. apply not_elem_of_dom. intros Hin.
    apply (is_fresh ({[fresh (dom (heap st))]} ∪ dom (heap st))).
    apply elem_of_union. by right.
  - by apply (ready_matrix _ _ _ _ Hr).
  - by rewrite Hlabels.
  - by rewrite Hlabels.
  - intros i j. rewrite Hlabels. apply loc_get_zeros.
Qed.

End instance.

(** ** The scoring pass: completion and failure *)

Section pass_outcomes.
Context {V : Type} {ext : Collaborators V}.
Implicit Types (st : state V) (self : loc) (ie : interaction_elements V)
  (df : DataFrame V) (p : string * string) (ps : list (string * string)).

Lemma length_calls ie ps :
  Forall (λ p, is_ok (score_of ie p)) ps → length (calls ie ps) = length ps.
Proof.
  induction 1 as [|p ps Hp _ IH]; [done|].
  change (calls ie (p :: ps))
    with (from_option (λ c, c :: calls ie ps) (calls ie ps)
            (cell1 ← cells ie !! p.1; cell2 ← cells ie !! p.2;
             Some (cell1, cell2))).
  unfold score_of in Hp.
  destruct (cells ie !! p.1); [|done].
  destruct (cells ie !! p.2); [|done]. simpl. by rewrite IH.
Qed.





End pass_outcomes.

(** ** The scoring pass: what it writes *)

Section pass_writes.
Context {V : Type} {ext : Collaborators V}.
Implicit Types (st : state V) (self : loc) (ie : interaction_elements V)
  (df : DataFrame V) (p : string * string) (ps : list (string * string)).

Lemma fill_app ie df ps1 ps2 :
  fill ie df (ps1 ++ ps2) = fill ie (fill ie df ps1) ps2.
Proof. unfold fill. apply foldl_app. Qed.

(** X9.  Of the two pairs that name the same two cells, the one that comes
    later in the pair list decides the matrix: after the pass both positions
    of a pair hold its score, provided neither order of it occurs further
    on in the list. *)
Theorem last_pair_wins self ie st df st' ps1 pair ps2 :
  elements st self = Some ie →
  frame st (cci_matrix ie) = Some df →
  compute_pairwise_interactions self st = (st', Ok tt) →
  pairs ie = ps1 ++ pair :: ps2 →
  ¬ (pair.1, pair.2) ∈ ps2 →
  ¬ (pair.2, pair.1) ∈ ps2 →
  ∃ M cell1 cell2 s,
    matrix st' self = Some M
    ∧ cells ie !! pair.1 = Some cell1
    ∧ cells ie !! pair.2 = Some cell2
    ∧ cci_score_from_binary cell1 cell2 = Ok s
    ∧ loc_get M pair.1 pair.2 = Some s
    ∧ loc_get M pair.2 pair.1 = Some s.
Proof.
  intros He Hf Hpass Hps Hn1 Hn2. assert (ready self ie st df) as Hr by done.
  destruct (compute_pairwise_interactions_Ok _ _ _ _ _ Hr Hpass) as [Hok ->].
  rewrite Hps in Hok |- *.
  apply Forall_app in Hok as [Hok1 [Hp Hok2]%Forall_cons].
  destruct (score_of ie pair) as [s|] eqn:Hs; [|done].
  destruct (score_of_Ok _ _ _ Hs) as (cell1 & cell2 & H1 & H2 & Hsc).
  exists (fill ie df (ps1 ++ pair :: ps2)), cell1, cell2, s.
  split_and!; try done.
  - apply (ready_matrix _ ie). exact (ready_assign _ _ _ _ _ _ Hr).
  - rewrite fill_app, fill_cons. unfold fill_step. rewrite Hs.
    destruct (loc_get_fill ie (write_pair (fill ie df ps1) pair s) ps2
                pair.1 pair.2 Hok2)
      as [(-> & _) | (q & _ & Hq & [-> | ->] & _)]; [|done..].
    apply loc_get_write_pair_1.
  - rewrite fill_app, fill_cons. unfold fill_step. rewrite Hs.
    destruct (loc_get_fill ie (write_pair (fill ie df ps1) pair s) ps2
                pair.2 pair.1 Hok2)
      as [(-> & _) | (q & _ & Hq & [-> | ->] & _)]; [|done..].
    apply loc_get_write_pair_2.
Qed.

(** X10.  The pass changes one object, the matrix, and in it only entries
    whose two labels form a pair of the list in one order or the other:
    every other entry, the attributes of the instance and every other object
    of the heap are as before. *)
Theorem pass_frame self ie st df st' :
  elements st self = Some ie →
  frame st (cci_matrix ie) = Some df →
  compute_pairwise_interactions self st = (st', Ok tt) →
  (∀ l, l ≠ cci_matrix ie → heap st' !! l = heap st !! l)
  ∧ elements st' self = Some ie
  ∧ ∃ M, matrix st' self = Some M
         ∧ ∀ i j, ¬ (i, j) ∈ pairs ie → ¬ (j, i) ∈ pairs ie →
                  loc_get M i j = loc_get df i j.
Proof.
  intros He Hf Hpass. assert (ready self ie st df) as Hr by done.
  destruct (compute_pairwise_interactions_Ok _ _ _ _ _ Hr Hpass) as [Hok ->].
  pose proof (ready_assign _ _ _ _ (fill ie df (pairs ie))
                (scored st ++ calls ie (pairs ie)) Hr) as Hr2.
  split_and!.
  - intros l Hl. simpl. by rewrite lookup_insert_ne.
  - by destruct Hr2.
  - exists (fill ie df (pairs ie)). split; [by apply (ready_matrix _ ie)|].
    intros i j Hn1 Hn2.
    by destruct (loc_get_fill ie df (pairs ie) i j Hok)
      as [(-> & _) | (q & _ & Hq & [-> | ->] & _)].
Qed.

End pass_writes.

(** ** The scoring pass on a constructed instance *)

Section constructed_pass.
Context {V : Type} (zero : V) {ext : Collaborators V}.
Variable list_set : list_of_set.
Hypothesis list_set_order : set_order list_set.
Implicit Types (st : state V) (self : loc).

(** X11.  The pass calls the scorer once for every ordered pair of cell
    labels, on the cells the registry has for them: with [C] distinct labels
    that is [C * C] calls, so twice for any two distinct cells and once for
    each cell with itself. *)
Theorem every_ordered_pair_scored rnaseq ppi_dict it gene_cutoffs tmpl
    st st1 st2 self :
  template_ok st tmpl →
  InteractionSpace zero list_set rnaseq ppi_dict it gene_cutoffs tmpl st
  = (st1, Ok self) →
  compute_pairwise_interactions self st1 = (st2, Ok tt) →
  NoDup (cell_labels st1 self) →
  ∃ ie new,
    elements st1 self = Some ie
    ∧ scored st2 = scored st ++ new
    ∧ length new
      = (length (cell_labels st1 self) * length (cell_labels st1 self))%nat
    ∧ ∀ i j, i ∈ cell_labels st1 self → j ∈ cell_labels st1 self →
        ∃ cell1 cell2, cells ie !! i = Some cell1
                       ∧ cells ie !! j = Some cell2
                       ∧ (cell1, cell2) ∈ new.
Proof.
  intros Htmpl Hnew Hpass Hnd.
  destruct (InteractionSpace_ready _ _ _ _ _ _ _ _ _ _ Hnew Htmpl)
    as (binary & ppi & cells0 & df0 & Hcells & Hinit & Hr & Hlabels & Hsc).
  set (ie := elements_built _ _ _ _ _) in Hr.
  destruct (compute_pairwise_interactions_Ok _ _ _ _ _ Hr Hpass) as [Hok ->].
  rewrite Hlabels in Hnd |- *.
  exists ie, (calls ie (pairs ie)). split_and!.
  - by destruct Hr.
  - simpl. by rewrite Hsc.
  - rewrite (length_calls _ _ Hok). simpl.
    rewrite (pairs_permutation _ _ list_set_order Hnd). apply length_prod.
  - intros i j Hi Hj.
    assert ((i, j) ∈ pairs ie) as Hin by by apply elem_of_pairs.
    pose proof (proj1 (Forall_forall _ _) Hok _ Hin) as Hp. cbv beta in Hp.
    destruct (score_of ie (i, j)) as [s|] eqn:Hs; [|done].
    destruct (score_of_Ok _ _ _ Hs) as (cell1 & cell2 & H1 & H2 & _).
    exists cell1, cell2. split_and!; try done.
    by apply (elem_of_calls _ _ (i, j)).
Qed.

(** X12.  Without a template the pass does not enlarge the matrix: after it
    the rows and the columns are still the cell labels in the order of the
    table, and the entries are those of the pairs of cell labels, each
    holding a score. *)
Theorem pass_keeps_shape rnaseq ppi_dict it gene_cutoffs st st1 st2 self :
  InteractionSpace zero list_set rnaseq ppi_dict it gene_cutoffs None st
  = (st1, Ok self) →
  compute_pairwise_interactions self st1 = (st2, Ok tt) →
  ∃ M, matrix st2 self = Some M
       ∧ index M = cell_labels st1 self
       ∧ columns M = cell_labels st1 self
       ∧ ∀ i j, is_Some (loc_get M i j)
                ↔ i ∈ cell_labels st1 self ∧ j ∈ cell_labels st1 self.
Proof.
  intros Hnew Hpass.
  assert (template_ok st None) as Htmpl by by intros t.
  destruct (InteractionSpace_ready _ _ _ _ _ _ _ _ _ _ Hnew Htmpl)
    as (binary & ppi & cells0 & df0 & Hcells & Hinit & Hr & Hlabels & Hsc).
  simpl in Hinit. injection Hinit as <-.
  set (ie := elements_built _ _ _ _ _) in Hr.
  destruct (compute_pairwise_interactions_Ok _ _ _ _ _ Hr Hpass) as [Hok ->].
  rewrite Hlabels.
  exists (fill ie (zeros zero (columns binary)) (pairs ie)).
  assert (∀ f : string * string → list string,
            (∀ p, f p ⊆ [p.1; p.2]) →
            (pairs ie ≫= f) ⊆ columns binary) as Hsub.
  { intros f Hf x ([a b] & Hx & Hq)%list_elem_of_bind.
    apply Hf in Hx. simpl in Hq. apply elem_of_pairs in Hq as [Ha Hb];
      [|done].
    apply elem_of_cons in Hx as [-> | Hx]; [done|].
    by apply list_elem_of_singleton in Hx as ->. }
  split_and!.
  - apply (ready_matrix _ ie). exact (ready_assign _ _ _ _ _ _ Hr).
  - rewrite (index_fill ie _ _ Hok). apply foldl_enlarge_covered. simpl.
    apply Hsub. by intros p.
  - rewrite (columns_fill ie _ _ Hok). apply foldl_enlarge_covered. simpl.
    apply Hsub. intros p x Hx. apply elem_of_cons in Hx as [-> | Hx].
    + right. by left.
    + apply list_elem_of_singleton in Hx as ->. by left.
  - intros i j.
    destruct (loc_get_fill ie (zeros zero (columns binary)) (pairs ie) i j
                Hok) as [(-> & Hn & _) | (q & s & Hq & Hqq & _ & -> & _)].
    + rewrite loc_get_zeros. simpl in Hn. rewrite elem_of_pairs in Hn by done.
      case_decide; [tauto|]. split; [by intros [? ?]|tauto].
    + split; [|by eauto]. intros _.
      destruct Hqq as [-> | ->]; simpl in Hq;
        apply elem_of_pairs in Hq; tauto.
Qed.

End constructed_pass.

(** ** Enlargement and repetition of the pass *)

Section enlargement.
Context {V : Type} {ext : Collaborators V}.
Implicit Types (st : state V) (self : loc) (ie : interaction_elements V)
  (df : DataFrame V) (p : string * string) (ps : list (string * string)).

Local Abbreviation scorable ie := (Forall (λ p, is_ok (score_of ie p))).

Lemma elem_of_foldl_enlarge (labels ls : list string) x :
  x ∈ foldl enlarge labels ls ↔ x ∈ labels ∨ x ∈ ls.
Proof.
  destruct (foldl_enlarge ls labels) as (new & -> & _ & Hnew).
  rewrite elem_of_app, Hnew.
  destruct (decide (x ∈ labels)); tauto.
Qed.

(** The entries a list of pairs writes do not depend on the frame it is
    applied to. *)
Lemma loc_get_fill_written ie df1 df2 ps i j :
  scorable ie ps → (i, j) ∈ ps ∨ (j, i) ∈ ps →
  loc_get (fill ie df1 ps) i j = loc_get (fill ie df2 ps) i j.
Proof.
  induction ps as [|p ps IH] using rev_ind; intros Hok Hin.
  - destruct Hin as [Hin | Hin]; by apply elem_of_nil in Hin.
  - apply Forall_app in Hok as [Hok [Hp _]%Forall_cons].
    rewrite !fill_snoc. unfold fill_step.
    destruct (score_of ie p) as [s|]; [|done].
    destruct (decide (p = (i, j))) as [-> | Hne1].
    { by rewrite !(loc_get_write_pair_1 _ (i, j)). }
    destruct (decide (p = (j, i))) as [-> | Hne2].
    { by rewrite !(loc_get_write_pair_2 _ (j, i)). }
    rewrite !loc_get_write_pair_ne
      by (destruct p; simpl; congruence).
    apply IH; [done|].
    rewrite !elem_of_app, !list_elem_of_singleton in Hin.
    destruct Hin as [[?|?] | [?|?]]; try congruence; tauto.
Qed.

(** Filling a filled matrix again with the same pairs changes nothing. *)
Lemma fill_idempotent ie df ps :
  scorable ie ps → fill ie (fill ie df ps) ps = fill ie df ps.
Proof.
  intros Hok.
  pose proof (index_fill ie (fill ie df ps) ps Hok) as Hi.
  pose proof (columns_fill ie (fill ie df ps) ps Hok) as Hc.
  rewrite foldl_enlarge_covered in Hi.
  2:{ intros x Hx. rewrite (index_fill ie df ps Hok).
      apply elem_of_foldl_enlarge. by right. }
  rewrite foldl_enlarge_covered in Hc.
  2:{ intros x Hx. rewrite (columns_fill ie df ps Hok).
      apply elem_of_foldl_enlarge. by right. }
  assert (values (fill ie (fill ie df ps) ps) = values (fill ie df ps))
    as Hv.
  { apply map_eq. intros [i j].
    change (loc_get (fill ie (fill ie df ps) ps) i j
            = loc_get (fill ie df ps) i j).
    destruct (decide ((i, j) ∈ ps ∨ (j, i) ∈ ps)) as [Hin | Hnot].
    - by apply loc_get_fill_written.
    - by destruct (loc_get_fill ie (fill ie df ps) ps i j Hok)
        as [(-> & _) | (q & _ & Hq & [-> | ->] & _)]; [|tauto..]. }
  destruct (fill ie (fill ie df ps) ps), (fill ie df ps).
  simpl in *. congruence.
Qed.

(** X13.  Running the pass a second time on an instance leaves the matrix,
    and the whole heap, as the first run left them. *)
Theorem pass_twice self ie st df st1 :
  elements st self = Some ie →
  frame st (cci_matrix ie) = Some df →
  compute_pairwise_interactions self st = (st1, Ok tt) →
  ∃ st2, compute_pairwise_interactions self st1 = (st2, Ok tt)
         ∧ heap st2 = heap st1
         ∧ matrix st2 self = matrix st1 self.
Proof.
  intros He Hf Hpass. assert (ready self ie st df) as Hr by done.
  destruct (compute_pairwise_interactions_Ok _ _ _ _ _ Hr Hpass) as [Hok ->].
  pose proof (ready_assign _ _ _ _ (fill ie df (pairs ie))
                (scored st ++ calls ie (pairs ie)) Hr) as Hr1.
  destruct (compute_pairwise_interactions_completes _ _ _ _ Hr1 Hok)
    as [st2 Hpass2].
  destruct (compute_pairwise_interactions_Ok _ _ _ _ _ Hr1 Hpass2)
    as [_ Hst2].
  exists st2. split; [done|].
  assert (heap st2
          = <[cci_matrix ie := ODataFrame (fill ie df (pairs ie))]> (heap st))
    as Hheap.
  { rewrite Hst2. simpl. by rewrite insert_insert_eq, fill_idempotent. }
  split; [done|].
  unfold matrix, elements, attr, frame. by rewrite Hheap.
Qed.

End enlargement.

Section template_growth.
Context {V : Type} (zero : V) {ext : Collaborators V}.
Variable list_set : list_of_set.
Hypothesis list_set_order : set_order list_set.
Implicit Types (st : state V) (self : loc).

(** X14.  On a template the pass appends to the rows, and to the columns,
    the cell labels the template does not have, each once; the labels the
    template has keep their places. *)
Theorem template_enlarged rnaseq ppi_dict it gene_cutoffs (t : loc)
    (df0 : DataFrame V) st st1 st2 self :
  frame st t = Some df0 →
  InteractionSpace zero list_set rnaseq ppi_dict it gene_cutoffs (Some t) st
  = (st1, Ok self) →
  compute_pairwise_interactions self st1 = (st2, Ok tt) →
  ∃ M new_rows new_columns,
    frame st2 t = Some M
    ∧ index M = index df0 ++ new_rows
    ∧ columns M = columns df0 ++ new_columns
    ∧ NoDup new_rows ∧ NoDup new_columns
    ∧ (∀ x, x ∈ new_rows ↔ x ∈ cell_labels st1 self ∧ ¬ x ∈ index df0)
    ∧ (∀ x, x ∈ new_columns
            ↔ x ∈ cell_labels st1 self ∧ ¬ x ∈ columns df0).
Proof.
  intros Hframe Hnew Hpass.
  assert (template_ok st (Some t)) as Htmpl by (intros ? [= <-]; eauto).
  destruct (InteractionSpace_ready _ _ _ _ _ _ _ _ _ _ Hnew Htmpl)
    as (binary & ppi & cells0 & df0' & Hcells & Hinit & Hr & Hlabels & Hsc).
  simpl in Hinit, Hr. rewrite Hframe in Hinit. injection Hinit as <-.
  set (ie := elements_built _ _ _ _ _) in Hr.
  destruct (compute_pairwise_interactions_Ok _ _ _ _ _ Hr Hpass) as [Hok ->].
  rewrite Hlabels.
  assert (∀ (f : string * string → list string) x,
            (∀ p y, y ∈ f p ↔ y = p.1 ∨ y = p.2) →
            x ∈ pairs ie ≫= f ↔ x ∈ columns binary) as Hbind.
  { intros f x Hf. rewrite list_elem_of_bind. split.
    - intros ([a b] & Hx & Hq). apply Hf in Hx. simpl in Hx, Hq.
      apply elem_of_pairs in Hq as [Ha Hb]; [|done].
      by destruct Hx as [-> | ->].
    - intros Hx. exists (x, x). split; [apply Hf; by left|].
      simpl. by apply elem_of_pairs. }
  destruct (foldl_enlarge (pairs ie ≫= λ p, [p.1; p.2]) (index df0))
    as (new_rows & Hrows & Hnd_r & Hin_r).
  destruct (foldl_enlarge (pairs ie ≫= λ p, [p.2; p.1]) (columns df0))
    as (new_columns & Hcols & Hnd_c & Hin_c).
  exists (fill ie df0 (pairs ie)), new_rows, new_columns.
  split_and!; try done.
  - unfold frame; simpl. by rewrite lookup_insert_eq.
  - by rewrite (index_fill ie _ _ Hok).
  - by rewrite (columns_fill ie _ _ Hok).
  - intros x. rewrite Hin_r, Hbind; [done|].
    intros p y. rewrite elem_of_cons, list_elem_of_singleton. tauto.
  - intros x. rewrite Hin_c, Hbind; [done|].
    intros p y. rewrite elem_of_cons, list_elem_of_singleton. tauto.
Qed.

(** X15.  Two instances constructed with the same template share one
    matrix: a pass on the first is seen through the second. *)
Theorem instances_share_template
    rnaseq1 ppi_dict1 it1 gene_cutoffs1 rnaseq2 ppi_dict2 it2 gene_cutoffs2
    (t : loc) (df0 : DataFrame V) st s1 s2 s3 self1 self2 :
  frame st t = Some df0 →
  InteractionSpace zero list_set rnaseq1 ppi_dict1 it1 gene_cutoffs1
    (Some t) st = (s1, Ok self1) →
  InteractionSpace zero list_set rnaseq2 ppi_dict2 it2 gene_cutoffs2
    (Some t) s1 = (s2, Ok self2) →
  compute_pairwise_interactions self1 s2 = (s3, Ok tt) →
  self1 ≠ self2
  ∧ cci_matrix <$> elements s3 self1 = Some t
  ∧ cci_matrix <$> elements s3 self2 = Some t
  ∧ matrix s3 self2 = matrix s3 self1
  ∧ matrix s3 self1 = frame s3 t.
Proof.
  intros Hframe Hnew1 Hnew2 Hpass.
  assert (template_ok st (Some t)) as Htmpl by (intros ? [= <-]; eauto).
  destruct (InteractionSpace_ready _ _ _ _ _ _ _ _ _ _ Hnew1 Htmpl)
    as (b1 & p1 & c1 & d1 & _ & Hinit1 & Hr1 & _ & _).
  simpl in Hinit1, Hr1. rewrite Hframe in Hinit1. injection Hinit1 as <-.
  set (ie1 := elements_built _ _ _ _ _) in Hr1.
  destruct Hr1 as [He1 Hf1]. simpl in Hf1.
  assert (template_ok s1 (Some t)) as Htmpl1 by (intros ? [= <-]; eauto).
  destruct (InteractionSpace_ready _ _ _ _ _ _ _ _ _ _ Hnew2 Htmpl1)
    as (b2 & p2 & c2 & d2 & _ & Hinit2 & Hr2 & _ & _).
  simpl in Hinit2, Hr2. rewrite Hf1 in Hinit2. injection Hinit2 as <-.
  set (ie2 := elements_built _ _ _ _ _) in Hr2.
  pose proof (InteractionSpace_heap_subseteq zero list_set rnaseq2 ppi_dict2
                it2 gene_cutoffs2 (Some t) s1) as Hsub.
  rewrite Hnew2 in Hsub. simpl in Hsub.
  assert (elements s2 self1 = Some ie1) as He1'.
  { unfold elements, attr in He1 |- *.
    destruct (heap s1 !! self1) as [o|] eqn:Hs1; [|done].
    by rewrite (lookup_weaken _ _ _ _ Hs1 Hsub). }
  assert (ready self1 ie1 s2 df0) as Hra.
  { split; [done|]. by destruct Hr2. }
  assert (self1 ≠ self2) as Hne.
  { intros Heq.
    apply InteractionSpace_Ok in Hnew2
      as (? & ? & ? & ? & _ & _ & _ & _ & _ & Hself2 & _).
    unfold elements, attr in He1.
    rewrite Heq, Hself2, fresh_heap in He1. done. }
  destruct (compute_pairwise_interactions_Ok _ _ _ _ _ Hra Hpass) as [Hok ->].
  pose proof (ready_assign _ _ _ _ (fill ie1 df0 (pairs ie1))
                (scored s2 ++ calls ie1 (pairs ie1)) Hra) as [Ha1 Ha2].
  pose proof (ready_assign _ _ _ _ (fill ie1 df0 (pairs ie1))
                (scored s2 ++ calls ie1 (pairs ie1)) Hr2) as Hb.
  change (cci_matrix ie2) with (cci_matrix ie1) in Hb.
  destruct Hb as [Hb1 Hb2].
  split_and!; try done.
  - by rewrite Ha1.
  - by rewrite Hb1.
  - unfold matrix. by rewrite Ha1, Hb1.
  - unfold matrix. by rewrite Ha1.
Qed.

End template_growth.

(** ** get_genes_for_filter *)

Section genes_for_filter.
Context {V : Type}.
Variable list_set : list_of_set.
Hypothesis list_set_order : set_order list_set.
Implicit Types (st : state V) (self : loc) (v : value V).

Lemma add_genes_run self name genes st v l :
  attr st self name = Some v → genes_of v = Some l →
  add_genes self name genes st = (st, Ok (genes ++ l)).
Proof.
  unfold attr, add_genes. intros Hattr Hl. rewrite bind_run. unfold getattr.
  destruct (heap st !! self) as [[|attrs]|]; try done. rewrite Hattr.
  destruct v; simplify_eq/=; try done. by rewrite app_nil_r.
Qed.

(** X16.  On an instance whose [product_filter] and [mediators] are each
    [None] or a list of genes, [get_genes_for_filter] returns the genes of
    the two lists without repetition ([None] counting as no gene) and
    changes nothing. *)
Theorem get_genes_for_filter_returns self st v1 v2 l1 l2 :
  attr st self "product_filter" = Some v1 → genes_of v1 = Some l1 →
  attr st self "mediators" = Some v2 → genes_of v2 = Some l2 →
  ∃ genes,
    get_genes_for_filter list_set self st = (st, Ok genes)
    ∧ NoDup genes
    ∧ ∀ g, g ∈ genes ↔ g ∈ l1 ∨ g ∈ l2.
Proof.
  intros H1 Hl1 H2 Hl2. unfold get_genes_for_filter. cbv zeta.
  rewrite bind_run, (add_genes_run _ _ _ _ _ _ H1 Hl1).
  rewrite bind_run, (add_genes_run _ _ _ _ _ _ H2 Hl2). simpl.
  eexists. split; [done|]. split.
  - rewrite (list_set_order _ _ _). apply NoDup_remove_dups.
  - intros g. rewrite (list_set_order _ _ _), elem_of_remove_dups.
    apply elem_of_app.
Qed.

(** X17.  When [product_filter] is set and [mediators] is not an attribute,
    [get_genes_for_filter] raises [AttributeError] for [mediators], and
    changes nothing. *)
Theorem get_genes_for_filter_no_mediators self st v1 l1 :
  attr st self "product_filter" = Some v1 → genes_of v1 = Some l1 →
  attr st self "mediators" = None →
  get_genes_for_filter list_set self st
  = (st, Raise (AttributeError "mediators")).
Proof.
  intros H1 Hl1 H2. unfold get_genes_for_filter. cbv zeta.
  rewrite bind_run, (add_genes_run _ _ _ _ _ _ H1 Hl1).
  rewrite bind_run. unfold add_genes. rewrite bind_run.
  unfold attr in H1, H2. unfold getattr.
  destruct (heap st !! self) as [[|attrs]|]; try done. by rewrite H2.
Qed.

End genes_for_filter.

(** ** The pair list in general *)

Section pairs_general.
Context {V : Type} (zero : V) {ext : Collaborators V}.
Variable list_set : list_of_set.
Hypothesis list_set_order : set_order list_set.

Lemma length_combinations2 {A : Type} (l : list A) :
  (2 * length (combinations2 l) = length l * (length l - 1))%nat.
Proof.
  induction l as [|x l IH]; [done|]. simpl.
  rewrite length_app, length_fmap. nia.
Qed.

(** X18.  Before repetitions are removed, the enumeration over the doubled
    list of [C] cell labels has [C * (2 * C - 1)] pairs. *)
Theorem length_combinations2_double {A : Type} (l : list A) :
  length (combinations2 (l ++ l)) = (length l * (2 * length l - 1))%nat.
Proof.
  pose proof (length_combinations2 (l ++ l)) as H.
  rewrite length_app in H. nia.
Qed.

(** X19.  Whatever the column labels of the table, repeated or not, the
    pair list has no repeated entry and holds exactly the ordered pairs of
    labels that occur among the columns; its length is the square of the
    number of distinct labels. *)
Theorem pairs_of_any_table binary ppi it tmpl (st st' : state V) ie :
  generate_interaction_elements zero list_set binary ppi it tmpl st
  = (st', Ok ie) →
  NoDup (pairs ie)
  ∧ (∀ x y, (x, y) ∈ pairs ie ↔ x ∈ columns binary ∧ y ∈ columns binary)
  ∧ length (pairs ie)
    = (length (remove_dups (columns binary))
       * length (remove_dups (columns binary)))%nat.
Proof.
  intros (cells0 & m & _ & ->)%generate_interaction_elements_Ok. simpl.
  split_and!.
  - by apply NoDup_pairs.
  - intros x y. by apply elem_of_pairs.
  - rewrite <- length_prod. apply Permutation_length, NoDup_Permutation.
    + by apply NoDup_pairs.
    + apply NoDup_list_prod; apply NoDup_remove_dups.
    + intros [x y]. rewrite elem_of_pairs by done.
      rewrite (list_elem_of_In _ (x, y)), in_prod_iff, <- !list_elem_of_In.
      by rewrite !elem_of_remove_dups.
Qed.

End pairs_general.

(** ** The further properties on the scenarios *)


(** X2: scenario A asked for an interaction type its [ppi_dict] does not
    have. *)
Lemma missing_interaction_type_raises_witness :
  "type" ∈ dom ScenarioA.gene_cutoffs
  ∧ ScenarioA.ppi_dict !! "signaling" = None
  ∧ ∃ cutoff_values,
      Reference.get_cutoffs ScenarioA.rnaseq ScenarioA.gene_cutoffs
      = Ok cutoff_values
      ∧ Reference.get_binary_rnaseq ScenarioA.rnaseq cutoff_values
        = Ok ScenarioA.binary
      ∧ ∃ st',
          InteractionSpace 0%Q (ext := Reference.collaborators Reference.Sum)
            Reference.list_set ScenarioA.rnaseq ScenarioA.ppi_dict
            "signaling" ScenarioA.gene_cutoffs None ScenarioA.empty
          = (st', Raise (KeyError "signaling"))
          ∧ attr st' (fresh (dom (heap ScenarioA.empty))) "binary_rnaseq"
            = Some (VBinary ScenarioA.binary)
          ∧ attr st' (fresh (dom (heap ScenarioA.empty))) "interaction_type"
            = Some (VStr "signaling")
          ∧ attr st' (fresh (dom (heap ScenarioA.empty))) "ppi_data" = None
          ∧ elements st' (fresh (dom (heap ScenarioA.empty))) = None
          ∧ dom (heap st')
            = {[fresh (dom (heap ScenarioA.empty))]}
              ∪ dom (heap ScenarioA.empty).
Proof.
  assert ("type" ∈ dom ScenarioA.gene_cutoffs) as Ht
    by (apply (bool_decide_unpack _); vm_compute; exact I).
  split; [exact Ht|]. evaluated Hp. eexists. evaluated Hcv. evaluated Hb.
  exact (missing_interaction_type_raises 0%Q
           (ext := Reference.collaborators Reference.Sum) Reference.list_set
           _ _ _ _ None ScenarioA.empty _ _ Ht Hcv Hb Hp).
Defined.

(** X3: the resolver of the reference on a method it does not have, a
    binarizer that rejects the table, and the registry of the reference on a
    table with a repeated cell label. *)
Lemma collaborator_exception_propagates_witness :
  "type" ∈ dom ScenarioB.unsupported
  ∧ "type" ∈ dom ScenarioA.gene_cutoffs
  ∧ (Reference.get_cutoffs ScenarioA.rnaseq ScenarioB.unsupported
     = Raise (ConfigurationError "unsupported cutoff method")
     ∧ ScenarioA.new ScenarioB.unsupported None ScenarioA.empty
       = (bare_instance ScenarioA.empty,
          Raise (ConfigurationError "unsupported cutoff method")))
  ∧ (∃ cutoff_values,
       Reference.get_cutoffs ScenarioA.rnaseq ScenarioA.gene_cutoffs
       = Ok cutoff_values
       ∧ get_binary_rnaseq (Collaborators := ScenarioB.broken_binarizer)
           ScenarioA.rnaseq cutoff_values
         = Raise (DataError "expression table cannot be binarized")
       ∧ InteractionSpace 0%Q (ext := ScenarioB.broken_binarizer)
           Reference.list_set ScenarioA.rnaseq ScenarioA.ppi_dict "physical"
           ScenarioA.gene_cutoffs None ScenarioA.empty
         = (bare_instance ScenarioA.empty,
            Raise (DataError "expression table cannot be binarized")))
  ∧ ∃ cutoff_values binary,
      Reference.get_cutoffs ScenarioB.duplicated ScenarioA.gene_cutoffs
      = Ok cutoff_values
      ∧ Reference.get_binary_rnaseq ScenarioB.duplicated cutoff_values
        = Ok binary
      ∧ ScenarioA.ppi_dict !! "physical" = Some ScenarioA.ppi
      ∧ Reference.cells_from_rnaseq binary
        = Raise (DataError "duplicated cell label or empty table")
      ∧ ∃ st',
          InteractionSpace 0%Q (ext := Reference.collaborators Reference.Sum)
            Reference.list_set ScenarioB.duplicated ScenarioA.ppi_dict
            "physical" ScenarioA.gene_cutoffs None ScenarioA.empty
          = (st', Raise (DataError "duplicated cell label or empty table"))
          ∧ attr st' (fresh (dom (heap ScenarioA.empty))) "ppi_data"
            = Some (VPPI ScenarioA.ppi)
          ∧ elements st' (fresh (dom (heap ScenarioA.empty))) = None
          ∧ dom (heap st')
            = {[fresh (dom (heap ScenarioA.empty))]}
              ∪ dom (heap ScenarioA.empty).
Proof.
  assert ("type" ∈ dom ScenarioB.unsupported) as Hu
    by (apply (bool_decide_unpack _); vm_compute; exact I).
  assert ("type" ∈ dom ScenarioA.gene_cutoffs) as Ht
    by (apply (bool_decide_unpack _); vm_compute; exact I).
  split; [exact Hu|]. split; [exact Ht|]. split; [|split].
  - evaluated Hcv.
    exact (proj1 (collaborator_exception_propagates 0%Q
                    (ext := Reference.collaborators Reference.Sum)
                    Reference.list_set ScenarioA.rnaseq ScenarioA.ppi_dict
                    "physical" _ None ScenarioA.empty _ Hu) Hcv).
  - eexists. evaluated Hcv. evaluated Hb.
    exact (proj1 (proj2 (collaborator_exception_propagates 0%Q
                           (ext := ScenarioB.broken_binarizer)
                           Reference.list_set ScenarioA.rnaseq
                           ScenarioA.ppi_dict "physical" _ None
                           ScenarioA.empty _ Ht)) _ Hcv Hb).
  - eexists _, _. evaluated Hcv. evaluated Hb. evaluated Hp. evaluated Hc.
    exact (proj2 (proj2 (collaborator_exception_propagates 0%Q
                           (ext := Reference.collaborators Reference.Sum)
                           Reference.list_set ScenarioB.duplicated
                           ScenarioA.ppi_dict "physical" _ None
                           ScenarioA.empty _ Ht)) _ _ _ Hcv Hb Hp Hc).
Defined.

(** X5: the instance of scenario A. *)
Lemma constructed_attributes_witness :
  let st1 := ScenarioA.constructed None ScenarioA.empty in
  ScenarioA.new ScenarioA.gene_cutoffs None ScenarioA.empty
  = (st1, Ok 1%positive)
  ∧ attr st1 1 "interaction_type" = Some (VStr "physical")
  ∧ ∃ binary ppi cells0 ie,
      ScenarioA.ppi_dict !! "physical" = Some ppi
      ∧ attr st1 1 "ppi_data" = Some (VPPI ppi)
      ∧ attr st1 1 "binary_rnaseq" = Some (VBinary binary)
      ∧ Reference.cells_from_rnaseq binary = Ok cells0
      ∧ elements st1 1 = Some ie
      ∧ dom (cells ie) = dom cells0
      ∧ ∀ k cell,
          cells ie !! k = Some cell →
          ∃ cell0, cells0 !! k = Some cell0
                   ∧ type cell = type cell0
                   ∧ rnaseq_data cell = rnaseq_data cell0
                   ∧ binary_ppi cell
                     = Reference.get_binary_ppi ppi (rnaseq_data cell0).
Proof.
  cbv zeta.
  assert (ScenarioA.new ScenarioA.gene_cutoffs None ScenarioA.empty
          = (ScenarioA.constructed None ScenarioA.empty, Ok 1%positive))
    as Hnew by (vm_compute; reflexivity).
  split; [exact Hnew|].
  exact (constructed_attributes 0%Q Reference.list_set _ _ _ _ _ _ _ _ Hnew).
Defined.

(** X6: the instance of scenario A, constructed without a template. *)
Lemma initial_matrix_is_zero_witness :
  let st1 := ScenarioA.constructed None ScenarioA.empty in
  ScenarioA.new ScenarioA.gene_cutoffs None ScenarioA.empty
  = (st1, Ok 1%positive)
  ∧ ∃ ie M,
      elements st1 1 = Some ie
      ∧ heap ScenarioA.empty !! cci_matrix ie = None
      ∧ matrix st1 1 = Some M
      ∧ index M = cell_labels st1 1
      ∧ columns M = cell_labels st1 1
      ∧ ∀ i j,
          loc_get M i j
          = if decide (i ∈ cell_labels st1 1 ∧ j ∈ cell_labels st1 1)
            then Some 0%Q else None.
Proof.
  cbv zeta.
  assert (ScenarioA.new ScenarioA.gene_cutoffs None ScenarioA.empty
          = (ScenarioA.constructed None ScenarioA.empty, Ok 1%positive))
    as Hnew by (vm_compute; reflexivity).
  split; [exact Hnew|].
  exact (initial_matrix_is_zero 0%Q Reference.list_set _ _ _ _ _ _ _ Hnew).
Defined.



(** X9: scenario A; [("A", "B")] comes after [("B", "A")] in the pair
    list. *)
Lemma last_pair_wins_witness :
  let st := ScenarioA.constructed None ScenarioA.empty in
  let st' := ScenarioA.completed 1 None ScenarioA.empty in
  let ps1 :=
    [("A", "A"); ("B", "A"); ("B", "B"); ("C", "A"); ("C", "B"); ("C", "C")]
  in
  let ps2 := [("A", "C"); ("B", "C")] in
  ∃ ie df,
    elements st 1 = Some ie
    ∧ frame st (cci_matrix ie) = Some df
    ∧ ScenarioA.pass 1 st = (st', Ok tt)
    ∧ pairs ie = ps1 ++ ("A", "B") :: ps2
    ∧ ¬ ("A", "B") ∈ ps2
    ∧ ¬ ("B", "A") ∈ ps2
    ∧ ∃ M cell1 cell2 s,
        matrix st' 1 = Some M
        ∧ cells ie !! "A" = Some cell1
        ∧ cells ie !! "B" = Some cell2
        ∧ Reference.cci_score_from_binary Reference.Sum cell1 cell2 = Ok s
        ∧ loc_get M "A" "B" = Some s
        ∧ loc_get M "B" "A" = Some s.
Proof.
  cbv zeta. eexists _, _. evaluated He. evaluated Hf. evaluated Hpass.
  evaluated Hps.
  assert (¬ ("A", "B") ∈ [("A", "C"); ("B", "C")]) as Hn1
    by (apply (bool_decide_unpack _); vm_compute; exact I).
  assert (¬ ("B", "A") ∈ [("A", "C"); ("B", "C")]) as Hn2
    by (apply (bool_decide_unpack _); vm_compute; exact I).
  split; [exact Hn1|]. split; [exact Hn2|].
  exact (last_pair_wins (ext := Reference.collaborators Reference.Sum)
           1 _ _ _ _ _ ("A", "B") _ He Hf Hpass Hps Hn1 Hn2).
Defined.

(** X10: scenario A on the template with labels [X] and [Y], whose entries
    the pass leaves alone. *)
Lemma pass_frame_witness :
  let st := ScenarioA.constructed (Some 1%positive)
              (ScenarioA.st0 ScenarioA.mismatched) in
  let st' := ScenarioA.completed 2 (Some 1%positive)
               (ScenarioA.st0 ScenarioA.mismatched) in
  ∃ ie,
    elements st 2 = Some ie
    ∧ frame st (cci_matrix ie) = Some ScenarioA.mismatched
    ∧ ScenarioA.pass 2 st = (st', Ok tt)
    ∧ (∀ l, l ≠ cci_matrix ie → heap st' !! l = heap st !! l)
    ∧ elements st' 2 = Some ie
    ∧ ∃ M, matrix st' 2 = Some M
           ∧ ∀ i j, ¬ (i, j) ∈ pairs ie → ¬ (j, i) ∈ pairs ie →
                    loc_get M i j = loc_get ScenarioA.mismatched i j.
Proof.
  cbv zeta. eexists. evaluated He. evaluated Hf. evaluated Hpass.
  exact (pass_frame (ext := Reference.collaborators Reference.Sum)
           2 _ _ _ _ He Hf Hpass).
Defined.

(** X11: scenario A; three cells, nine calls. *)
Lemma every_ordered_pair_scored_witness :
  let st1 := ScenarioA.constructed None ScenarioA.empty in
  let st2 := ScenarioA.completed 1 None ScenarioA.empty in
  set_order Reference.list_set
  ∧ template_ok ScenarioA.empty None
  ∧ ScenarioA.new ScenarioA.gene_cutoffs None ScenarioA.empty
    = (st1, Ok 1%positive)
  ∧ ScenarioA.pass 1 st1 = (st2, Ok tt)
  ∧ NoDup (cell_labels st1 1)
  ∧ ∃ ie new,
      elements st1 1 = Some ie
      ∧ scored st2 = scored ScenarioA.empty ++ new
      ∧ length new
        = (length (cell_labels st1 1) * length (cell_labels st1 1))%nat
      ∧ ∀ i j, i ∈ cell_labels st1 1 → j ∈ cell_labels st1 1 →
          ∃ cell1 cell2, cells ie !! i = Some cell1
                         ∧ cells ie !! j = Some cell2
                         ∧ (cell1, cell2) ∈ new.
Proof.
  cbv zeta.
  split; [exact reference_list_set_order|].
  split; [apply template_ok_None|].
  evaluated Hnew. evaluated Hpass.
  assert (NoDup (cell_labels (ScenarioA.constructed None ScenarioA.empty) 1))
    as Hnd by (apply (bool_decide_unpack _); vm_compute; exact I).
  split; [exact Hnd|].
  exact (every_ordered_pair_scored 0%Q Reference.list_set
           reference_list_set_order _ _ _ _ _ _ _ _ _
           (template_ok_None _) Hnew Hpass Hnd).
Defined.

(** X12: scenario A without a template. *)
Lemma pass_keeps_shape_witness :
  let st1 := ScenarioA.constructed None ScenarioA.empty in
  let st2 := ScenarioA.completed 1 None ScenarioA.empty in
  set_order Reference.list_set
  ∧ ScenarioA.new ScenarioA.gene_cutoffs None ScenarioA.empty
    = (st1, Ok 1%positive)
  ∧ ScenarioA.pass 1 st1 = (st2, Ok tt)
  ∧ ∃ M, matrix st2 1 = Some M
         ∧ index M = cell_labels st1 1
         ∧ columns M = cell_labels st1 1
         ∧ ∀ i j, is_Some (loc_get M i j)
                  ↔ i ∈ cell_labels st1 1 ∧ j ∈ cell_labels st1 1.
Proof.
  cbv zeta. split; [exact reference_list_set_order|].
  evaluated Hnew. evaluated Hpass.
  exact (pass_keeps_shape 0%Q Reference.list_set reference_list_set_order
           _ _ _ _ _ _ _ _ Hnew Hpass).
Defined.

(** X13: scenario A; the pass, and the pass again. *)
Lemma pass_twice_witness :
  let st := ScenarioA.constructed None ScenarioA.empty in
  let st1 := ScenarioA.completed 1 None ScenarioA.empty in
  ∃ ie df,
    elements st 1 = Some ie
    ∧ frame st (cci_matrix ie) = Some df
    ∧ ScenarioA.pass 1 st = (st1, Ok tt)
    ∧ ∃ st2, ScenarioA.pass 1 st1 = (st2, Ok tt)
             ∧ heap st2 = heap st1
             ∧ matrix st2 1 = matrix st1 1.
Proof.
  cbv zeta. eexists _, _. evaluated He. evaluated Hf. evaluated Hpass.
  exact (pass_twice (ext := Reference.collaborators Reference.Sum)
           1 _ _ _ _ He Hf Hpass).
Defined.

(** X14: scenario A on the template with labels [X] and [Y]: the pass
    appends [A], [B] and [C]. *)
Lemma template_enlarged_witness :
  let st := ScenarioA.st0 ScenarioA.mismatched in
  let st1 := ScenarioA.constructed (Some 1%positive) st in
  let st2 := ScenarioA.completed 2 (Some 1%positive) st in
  set_order Reference.list_set
  ∧ frame st 1 = Some ScenarioA.mismatched
  ∧ ScenarioA.new ScenarioA.gene_cutoffs (Some 1%positive) st
    = (st1, Ok 2%positive)
  ∧ ScenarioA.pass 2 st1 = (st2, Ok tt)
  ∧ ∃ M new_rows new_columns,
      frame st2 1 = Some M
      ∧ index M = index ScenarioA.mismatched ++ new_rows
      ∧ columns M = columns ScenarioA.mismatched ++ new_columns
      ∧ NoDup new_rows ∧ NoDup new_columns
      ∧ (∀ x, x ∈ new_rows
              ↔ x ∈ cell_labels st1 2 ∧ ¬ x ∈ index ScenarioA.mismatched)
      ∧ (∀ x, x ∈ new_columns
              ↔ x ∈ cell_labels st1 2
                ∧ ¬ x ∈ columns ScenarioA.mismatched).
Proof.
  cbv zeta. split; [exact reference_list_set_order|].
  assert (frame (ScenarioA.st0 ScenarioA.mismatched) 1
          = Some ScenarioA.mismatched) as Hframe by reflexivity.
  split; [exact Hframe|]. evaluated Hnew. evaluated Hpass.
  exact (template_enlarged 0%Q Reference.list_set reference_list_set_order
           _ _ _ _ _ _ _ _ _ _ Hframe Hnew Hpass).
Defined.

(** X15: two instances of scenario A on one template; the pass runs on the
    first. *)
Lemma instances_share_template_witness :
  let st := ScenarioA.st0 ScenarioA.template in
  frame st 1 = Some ScenarioA.template
  ∧ ScenarioA.new ScenarioA.gene_cutoffs (Some 1%positive) st
    = (ScenarioB.first, Ok 2%positive)
  ∧ ScenarioA.new ScenarioA.gene_cutoffs (Some 1%positive) ScenarioB.first
    = (ScenarioB.second, Ok 3%positive)
  ∧ ScenarioA.pass 2 ScenarioB.second = (ScenarioB.second_passed, Ok tt)
  ∧ 2%positive ≠ 3%positive
  ∧ cci_matrix <$> elements ScenarioB.second_passed 2 = Some 1%positive
  ∧ cci_matrix <$> elements ScenarioB.second_passed 3 = Some 1%positive
  ∧ matrix ScenarioB.second_passed 3 = matrix ScenarioB.second_passed 2
  ∧ matrix ScenarioB.second_passed 2 = frame ScenarioB.second_passed 1.
Proof.
  cbv zeta.
  assert (frame (ScenarioA.st0 ScenarioA.template) 1
          = Some ScenarioA.template) as Hframe by reflexivity.
  split; [exact Hframe|]. evaluated Hnew1. evaluated Hnew2. evaluated Hpass.
  exact (instances_share_template 0%Q Reference.list_set
           _ _ _ _ _ _ _ _ _ _ _ _ _ _ _ _ Hframe Hnew1 Hnew2 Hpass).
Defined.

(** X16: the instance of scenario A after the caller has set both
    attributes, with the gene [g2] in both. *)
Lemma get_genes_for_filter_returns_witness :
  let st := ScenarioB.with_filter_and_mediators in
  set_order Reference.list_set
  ∧ attr st 1 "product_filter" = Some (VList ["g1"; "g2"])
  ∧ genes_of (V := Q) (VList ["g1"; "g2"]) = Some ["g1"; "g2"]
  ∧ attr st 1 "mediators" = Some (VList ["g2"; "g3"])
  ∧ genes_of (V := Q) (VList ["g2"; "g3"]) = Some ["g2"; "g3"]
  ∧ ∃ genes,
      get_genes_for_filter Reference.list_set 1 st = (st, Ok genes)
      ∧ NoDup genes
      ∧ ∀ g, g ∈ genes ↔ g ∈ ["g1"; "g2"] ∨ g ∈ ["g2"; "g3"].
Proof.
  cbv zeta. split; [exact reference_list_set_order|].
  evaluated H1. evaluated Hl1. evaluated H2. evaluated Hl2.
  exact (get_genes_for_filter_returns Reference.list_set
           reference_list_set_order 1 _ _ _ _ _ H1 Hl1 H2 Hl2).
Defined.

(** X17: the instance of scenario A after the caller has set
    [product_filter] only. *)
Lemma get_genes_for_filter_no_mediators_witness :
  let st := ScenarioB.with_filter in
  attr st 1 "product_filter" = Some (VList ["g1"; "g2"])
  ∧ genes_of (V := Q) (VList ["g1"; "g2"]) = Some ["g1"; "g2"]
  ∧ attr st 1 "mediators" = None
  ∧ get_genes_for_filter Reference.list_set 1 st
    = (st, Raise (AttributeError "mediators")).
Proof.
  cbv zeta. evaluated H1. evaluated Hl1.
  assert (attr ScenarioB.with_filter 1 "mediators" = None) as H2
    by (vm_compute; reflexivity).
  split; [exact H2|].
  exact (get_genes_for_filter_no_mediators Reference.list_set 1 _ _ _
           H1 Hl1 H2).
Defined.

(** X19: the binary table of scenario A. *)
Lemma pairs_of_any_table_witness :
  set_order Reference.list_set
  ∧ ∃ st' ie,
      generate_interaction_elements 0%Q
        (ext := Reference.collaborators Reference.Sum) Reference.list_set
        ScenarioA.binary ScenarioA.ppi "physical" None ScenarioA.empty
      = (st', Ok ie)
      ∧ NoDup (pairs ie)
      ∧ (∀ x y, (x, y) ∈ pairs ie
                ↔ x ∈ columns ScenarioA.binary ∧ y ∈ columns ScenarioA.binary)
      ∧ length (pairs ie)
        = (length (remove_dups (columns ScenarioA.binary))
           * length (remove_dups (columns ScenarioA.binary)))%nat.
Proof.
  split; [exact reference_list_set_order|]. eexists _, _. evaluated Hgen.
  exact (pairs_of_any_table 0%Q
           (ext := Reference.collaborators Reference.Sum) Reference.list_set
           reference_list_set_order _ _ _ _ _ _ _ Hgen).
Defined.
